(** * LLM Price Calculator: pricing service and derived views

    A shallow embedding of [services/apiService] ([guessProvider],
    [parsePrice], [fetchModels], [calculateModelCost]), of the derived state
    of [App] ([allCosts], [tableData], [chartData]) and of the row selection of
    [components/CostChart], together with the part of the JavaScript run time
    these functions rest on.

    Conventions of the embedding:
    - a JavaScript number is an IEEE 754 binary64 value, taken from the
      Standard Library's [spec_float] with [prec = 53] and [emax = 1024];
    - a JavaScript string is a [string], one character for each code unit,
      the code units being those below 256 (Basic Latin and Latin-1
      Supplement): [toLowerCase] maps the capital letters of both blocks, the
      white space that number parsing skips is the ASCII one and the
      no-break space, and [toUpperCase] maps the small letters of both
      blocks but three ([JS.upperInRange]), whose capitals lie outside these
      code units;
    - a [Set<string>] is a [gset string];
    - a catalog entry has the shape that [types] declares ([id] and [name]
      are strings, [context_length] is a number), with the absences the code
      itself provides for: no [pricing], no [context_length], and a price
      field of any value that [parsePrice] declares for its argument (a
      string, a number, [undefined] or [null]);
    - [Array.prototype.sort] is the stable sort of the language; where the
      comparator is not consistent the language leaves the order to the
      engine, and the order given here is that of an insertion sort;
    - a text held by [localStorage] is represented by what [JSON.parse] makes
      of it (see [JS.text]), and [localStorage] itself is a reliable store:
      its operations do not throw. *)

From Stdlib Require Import ZArith Lia Bool Ascii String List SpecFloat.
From Stdlib Require Import Permutation Sorted DecimalString.
From stdpp Require Import base gmap strings.

Set Warnings "-register-all".

Local Open Scope string_scope.
Local Open Scope Z_scope.

(** ** JavaScript numbers *)

Module JS.

Definition number : Type := spec_float.

Definition prec : Z := 53.
Definition emax : Z := 1024.

Definition NaN : number := S754_nan.
Definition Infinity : number := S754_infinity false.
Definition zero : number := S754_zero false.

Definition mul (x y : number) : number := SFmul prec emax x y.
Definition div (x y : number) : number := SFdiv prec emax x y.
Definition add (x y : number) : number := SFadd prec emax x y.
Definition sub (x y : number) : number := SFsub prec emax x y.

(** [x < y], [x > y] and [x >= y] on numbers; all are false on [NaN]. *)
Definition lt (x y : number) : bool := SFltb x y.
Definition gt (x y : number) : bool := SFltb y x.
Definition ge (x y : number) : bool := SFleb y x.

Definition isNaN (x : number) : bool :=
  match x with S754_nan => true | _ => false end.

Definition isFinite (x : number) : bool :=
  match x with S754_zero _ | S754_finite _ _ _ => true | _ => false end.

(** [Math.max(x, y)]: [NaN] if either is, and [+0] counts as larger than
    [-0]. *)
Definition Math_max (x y : number) : number :=
  match x, y with
  | S754_nan, _ | _, S754_nan => NaN
  | S754_zero sx, S754_zero sy => S754_zero (sx && sy)
  | _, _ => if lt x y then y else x
  end.

(** The number nearest to [m * 10^e] (ties to even), with the sign [neg]:
    the Number value of a decimal literal with digits [m] and scale [e]. *)
Definition of_decimal (neg : bool) (m : N) (e : Z) : number :=
  match m with
  | N0 => S754_zero neg
  | Npos p =>
      if 0 <=? e then binary_round prec emax neg (p * Z.to_pos (10 ^ e)) 0
      else
        let '(q, e', l) := SFdiv_core_binary prec emax (Zpos p) 0 (10 ^ (- e)) 0 in
        binary_round_aux prec emax neg q e' l
  end.

(** *** Strings *)

Definition code (c : ascii) : N := N_of_ascii c.

(** The capital letters below code unit 256: [A] to [Z], and U+00C0 to
    U+00DE but the multiplication sign U+00D7.  Each has its small letter 32
    code units further. *)
Definition isUpper (c : ascii) : bool :=
  ((65 <=? code c)%N && (code c <=? 90)%N) ||
  ((192 <=? code c)%N && (code c <=? 222)%N && negb (code c =? 215)%N).

(** The small letters below code unit 256 whose capital letter is below 256
    too: [a] to [z], and U+00E0 to U+00FE but the division sign U+00F7. *)
Definition isLower (c : ascii) : bool :=
  ((97 <=? code c)%N && (code c <=? 122)%N) ||
  ((224 <=? code c)%N && (code c <=? 254)%N && negb (code c =? 247)%N).

(** [toUpperCase] keeps a character within the code units below 256, and
    makes one character of it: so for all but the micro sign U+00B5, the
    sharp s U+00DF and the y with diaeresis U+00FF. *)
Definition upperInRange (c : ascii) : bool :=
  negb ((code c =? 181)%N || (code c =? 223)%N || (code c =? 255)%N).

Definition isDigit (c : ascii) : bool := (48 <=? code c)%N && (code c <=? 57)%N.

(** White space and line terminators below code unit 256: tab, line feed,
    vertical tab, form feed, carriage return, space and no-break space. *)
Definition isWhiteSpace (c : ascii) : bool :=
  ((9 <=? code c)%N && (code c <=? 13)%N) || (code c =? 32)%N || (code c =? 160)%N.

Definition toLower (c : ascii) : ascii :=
  if isUpper c then ascii_of_N (code c + 32) else c.

(** [toUpperCase] on one character; it is the character of the language
    where [upperInRange] holds. *)
Definition toUpper (c : ascii) : ascii :=
  if isLower c then ascii_of_N (code c - 32) else c.

Fixpoint String_toLowerCase (s : string) : string :=
  match s with
  | EmptyString => EmptyString
  | String c s' => String (toLower c) (String_toLowerCase s')
  end.

Fixpoint String_toUpperCase (s : string) : string :=
  match s with
  | EmptyString => EmptyString
  | String c s' => String (toUpper c) (String_toUpperCase s')
  end.

(** [s.startsWith(p)] *)
Fixpoint String_startsWith (s p : string) : bool :=
  match p with
  | EmptyString => true
  | String x p' =>
      match s with
      | EmptyString => false
      | String a s' => Ascii.eqb a x && String_startsWith s' p'
      end
  end.

(** [s.includes(q)] *)
Fixpoint String_includes (s q : string) : bool :=
  String_startsWith s q ||
  match s with
  | EmptyString => false
  | String _ s' => String_includes s' q
  end.

(** [s.split(sep)] for a separator of one character; the result is never
    empty. *)
Fixpoint String_split (s : string) (sep : ascii) : list string :=
  match s with
  | EmptyString => [EmptyString]
  | String c s' =>
      if Ascii.eqb c sep then EmptyString :: String_split s' sep
      else match String_split s' sep with
           | p :: ps => String c p :: ps
           | [] => [String c EmptyString]
           end
  end.

(** [s.charAt(0)] *)
Definition String_charAt0 (s : string) : string :=
  match s with
  | EmptyString => EmptyString
  | String c _ => String c EmptyString
  end.

(** [s.slice(1)] *)
Definition String_slice1 (s : string) : string :=
  match s with
  | EmptyString => EmptyString
  | String _ s' => s'
  end.

(** [a < b] on strings: code unit by code unit, a proper prefix first. *)
Fixpoint String_lt (a b : string) : bool :=
  match a, b with
  | _, EmptyString => false
  | EmptyString, String _ _ => true
  | String x a', String y b' =>
      if (code x <? code y)%N then true
      else if (code y <? code x)%N then false
      else String_lt a' b'
  end.

(** *** Reading and writing numbers *)

Fixpoint trimStart (s : string) : string :=
  match s with
  | String c s' => if isWhiteSpace c then trimStart s' else s
  | EmptyString => EmptyString
  end.

(** The longest prefix of digits and what follows it. *)
Fixpoint takeDigits (s : string) : string * string :=
  match s with
  | String c s' =>
      if isDigit c then let '(ds, r) := takeDigits s' in (String c ds, r)
      else (EmptyString, s)
  | EmptyString => (EmptyString, EmptyString)
  end.

Fixpoint digitsValue (acc : N) (ds : string) : N :=
  match ds with
  | EmptyString => acc
  | String c ds' => digitsValue (10 * acc + (code c - 48))%N ds'
  end.

Definition isEmpty (s : string) : bool :=
  match s with EmptyString => true | _ => false end.

Definition takeSign (s : string) : bool * string :=
  match s with
  | String c t =>
      if Ascii.eqb c "+" then (false, t)
      else if Ascii.eqb c "-" then (true, t)
      else (false, s)
  | EmptyString => (false, s)
  end.

(** ExponentPart: [e] or [E], an optional sign and at least one digit.
    Without one the exponent is [0] and nothing is consumed. *)
Definition scanExponent (s : string) : Z * string :=
  match s with
  | String c s1 =>
      if Ascii.eqb c "e" || Ascii.eqb c "E" then
        let '(neg, s2) := takeSign s1 in
        let '(ds, rest) := takeDigits s2 in
        if isEmpty ds then (0, s)
        else ((if neg then - Z.of_N (digitsValue 0 ds)
               else Z.of_N (digitsValue 0 ds)), rest)
      else (0, s)
  | EmptyString => (0, s)
  end.

(** The longest prefix that is a StrUnsignedDecimalLiteral other than
    [Infinity]: its digits, its power of ten, and the rest of the text. *)
Definition scanUnsigned (s : string) : option (N * Z * string) :=
  let '(ip, s1) := takeDigits s in
  let '(fp, s2) :=
    match s1 with
    | String c t => if Ascii.eqb c "." then takeDigits t else (EmptyString, s1)
    | EmptyString => (EmptyString, s1)
    end in
  if isEmpty ip && isEmpty fp then None
  else
    let '(ex, rest) := scanExponent s2 in
    Some (digitsValue 0 (ip +:+ fp), ex - Z.of_nat (String.length fp), rest).

(** [parseFloat(s)]: leading white space is skipped, the longest prefix that
    is a StrDecimalLiteral is read, and what follows it is ignored; [NaN]
    when there is no such prefix. *)
Definition parseFloat (s : string) : number :=
  let '(neg, u) := takeSign (trimStart s) in
  if String_startsWith u "Infinity" then S754_infinity neg
  else match scanUnsigned u with
       | Some (m, e, _) => of_decimal neg m e
       | None => NaN
       end.

(** [Number(s)] on a string (StringToNumber): the whole text, white space at
    both ends apart, must be a numeric literal; the empty text is [+0]. *)
Definition isHexDigit (c : ascii) : bool :=
  isDigit c || ((97 <=? code (toLower c))%N && (code (toLower c) <=? 102)%N).

Definition hexValue (c : ascii) : N :=
  if isDigit c then (code c - 48)%N else (code (toLower c) - 87)%N.

Fixpoint radixValue (radix : N) (ok : ascii -> bool) (acc : N) (s : string)
  : option N :=
  match s with
  | EmptyString => Some acc
  | String c s' =>
      if ok c then radixValue radix ok (radix * acc + hexValue c)%N s'
      else if isEmpty (trimStart s) then Some acc else None
  end.

Definition nonDecimal (radix : N) (ok : ascii -> bool) (s : string) : number :=
  match s with
  | String c _ =>
      if ok c then
        match radixValue radix ok 0 s with
        | Some n => of_decimal false n 0
        | None => NaN
        end
      else NaN
  | EmptyString => NaN
  end.

Definition isBinaryDigit (c : ascii) : bool := (code c =? 48)%N || (code c =? 49)%N.
Definition isOctalDigit (c : ascii) : bool := (48 <=? code c)%N && (code c <=? 55)%N.

Definition StringToNumber (s : string) : number :=
  match trimStart s with
  | EmptyString => zero
  | String "0" (String x t) as u =>
      if Ascii.eqb (toLower x) "x" then nonDecimal 16 isHexDigit t
      else if Ascii.eqb (toLower x) "o" then nonDecimal 8 isOctalDigit t
      else if Ascii.eqb (toLower x) "b" then nonDecimal 2 isBinaryDigit t
      else match scanUnsigned u with
           | Some (m, e, rest) =>
               if isEmpty (trimStart rest) then of_decimal false m e else NaN
           | None => NaN
           end
  | u =>
      let '(neg, v) := takeSign u in
      if String_startsWith v "Infinity" then
        if isEmpty (trimStart (String.substring 8 (String.length v - 8) v))
        then S754_infinity neg else NaN
      else match scanUnsigned v with
           | Some (m, e, rest) =>
               if isEmpty (trimStart rest) then of_decimal neg m e else NaN
           | None => NaN
           end
  end.

(** Number::toString in radix 10.  A positive finite [x] is written with the
    fewest digits [s] (there are [k] of them) and the power [n] for which
    [s * 10^(n-k)] reads back as [x]; of several such [s] the one nearest to
    [x], the even one on a tie. *)
Definition ratio (m : positive) (e : Z) : Z * Z :=
  if 0 <=? e then (Zpos m * 2 ^ e, 1) else (Zpos m, 2 ^ (- e)).

(** [num/den >= 10^n] *)
Definition ge_pow10 (num den n : Z) : bool :=
  if 0 <=? n then den * 10 ^ n <=? num else den <=? num * 10 ^ (- n).

Fixpoint findUp (fuel : nat) (num den n : Z) : Z :=
  match fuel with
  | O => n
  | S f => if ge_pow10 num den n then findUp f num den (n + 1) else n
  end.

Fixpoint findDown (fuel : nat) (num den n : Z) : Z :=
  match fuel with
  | O => n
  | S f => if ge_pow10 num den (n - 1) then n else findDown f num den (n - 1)
  end.

(** The [n] with [10^(n-1) <= num/den < 10^n]. *)
Definition decimalExponent (num den : Z) : Z :=
  if ge_pow10 num den 0 then findUp (Z.to_nat (Z.log2 num + 1)) num den 1
  else findDown (Z.to_nat (Z.log2 den + 1)) num den 0.

(** [floor (num/den * 10^j)] *)
Definition scaled (num den j : Z) : Z :=
  if 0 <=? j then (num * 10 ^ j) / den else num / (den * 10 ^ (- j)).

#[global] Instance number_eq_dec : EqDecision number.
Proof. solve_decision. Defined.

Definition shortest_at (x : number) (num den n k : Z) : option (Z * Z) :=
  let lo := scaled num den (k - n) in
  let hi := lo + 1 in
  let back (s : Z) := bool_decide (of_decimal false (Z.to_N s) (n - k) = x) in
  let hi_closer :=
    match (if 0 <=? n - k
           then 2 * num ?= (2 * lo + 1) * 10 ^ (n - k) * den
           else 2 * num * 10 ^ (k - n) ?= (2 * lo + 1) * den) with
    | Lt => false
    | Gt => true
    | Eq => Z.odd lo
    end in
  let up := if hi =? 10 ^ k then (10 ^ (k - 1), n + 1) else (hi, n) in
  match back lo, back hi with
  | true, true => Some (if hi_closer then up else (lo, n))
  | true, false => Some (lo, n)
  | false, true => Some up
  | false, false => None
  end.

Fixpoint shortest (fuel : nat) (x : number) (num den n k : Z) : Z * Z * Z :=
  match fuel with
  | O => (scaled num den (k - n), n, k)
  | S f =>
      match shortest_at x num den n k with
      | Some (s, n') => (s, n', k)
      | None => shortest f x num den n (k + 1)
      end
  end.

Definition digitsOf (n : Z) : string := NilZero.string_of_uint (N.to_uint (Z.to_N n)).

Fixpoint zeros (n : nat) : string :=
  match n with O => EmptyString | S n' => String "0" (zeros n') end.

Definition Number_toString_pos (m : positive) (e : Z) : string :=
  let '(num, den) := ratio m e in
  let '(s, n, k) :=
    shortest 17 (S754_finite false m e) num den (decimalExponent num den) 1 in
  let ds := digitsOf s in
  if (k <=? n) && (n <=? 21) then ds +:+ zeros (Z.to_nat (n - k))
  else if (0 <? n) && (n <=? 21) then
    String.substring 0 (Z.to_nat n) ds +:+ "." +:+
    String.substring (Z.to_nat n) (Z.to_nat (k - n)) ds
  else if (-6 <? n) && (n <=? 0) then "0." +:+ zeros (Z.to_nat (- n)) +:+ ds
  else
    let ex := (if n - 1 <? 0 then "-" else "+") +:+ digitsOf (Z.abs (n - 1)) in
    if k =? 1 then ds +:+ "e" +:+ ex
    else String.substring 0 1 ds +:+ "." +:+
         String.substring 1 (Z.to_nat (k - 1)) ds +:+ "e" +:+ ex.

Definition Number_toString (x : number) : string :=
  match x with
  | S754_nan => "NaN"
  | S754_zero _ => "0"
  | S754_infinity false => "Infinity"
  | S754_infinity true => "-Infinity"
  | S754_finite false m e => Number_toString_pos m e
  | S754_finite true m e => "-" +:+ Number_toString_pos m e
  end.

(** An integer literal. *)
Definition int (z : Z) : number := of_decimal (z <? 0) (Z.abs_N z) 0.

(** *** Values *)

Inductive value :=
| VUndefined
| VNull
| VBool (b : bool)
| VNumber (x : number)
| VString (s : string)
| VArray (elems : list value)
| VObject (fields : list (string * value)).

Fixpoint lookupField (key : string) (fields : list (string * value)) : value :=
  match fields with
  | [] => VUndefined
  | (k, x) :: fields' => if String.eqb k key then x else lookupField key fields'
  end.

(** The object has a property of its own under [key]. *)
Definition hasOwn (key : string) (fields : list (string * value)) : bool :=
  existsb (fun kv => String.eqb (fst kv) key) fields.

(** [String(v)] for a value read from a JSON text; [None] stands for the
    TypeError it throws.  An array joins its elements with commas, [null] and
    [undefined] elements giving the empty text.  An object is converted by the
    [toString] it has: the inherited one gives ["[object Object]"], and a
    property of its own of that name, which in a value read from JSON is never
    a function, leaves none that can be called. *)
Fixpoint ToString (v : value) : option string :=
  match v with
  | VUndefined => Some "undefined"
  | VNull => Some "null"
  | VBool true => Some "true"
  | VBool false => Some "false"
  | VNumber x => Some (Number_toString x)
  | VString s => Some s
  | VArray elems =>
      (fix join (l : list value) : option string :=
         match l with
         | [] => Some EmptyString
         | x :: l' =>
             match match x with
                   | VUndefined | VNull => Some EmptyString
                   | _ => ToString x
                   end with
             | Some s =>
                 match l' with
                 | [] => Some s
                 | _ :: _ =>
                     match join l' with
                     | Some r => Some (s +:+ "," +:+ r)
                     | None => None
                     end
                 end
             | None => None
             end
         end) elems
  | VObject fields =>
      if hasOwn "toString" fields then None else Some "[object Object]"
  end.

(** [Number(v)], and the conversion of an operand of [-]; [None] stands
    for the TypeError it throws. *)
Definition ToNumber (v : value) : option number :=
  match v with
  | VUndefined => Some NaN
  | VNull => Some zero
  | VBool true => Some (int 1)
  | VBool false => Some zero
  | VNumber x => Some x
  | VString s => Some (StringToNumber s)
  | VArray _ | VObject _ =>
      match ToString v with
      | Some s => Some (StringToNumber s)
      | None => None
      end
  end.

(** [v.key] for a key that no built-in object defines: [None] stands for the
    TypeError that reading a property of [null] or [undefined] throws. *)
Definition getMember (v : value) (key : string) : option value :=
  match v with
  | VUndefined | VNull => None
  | VObject fields => Some (lookupField key fields)
  | _ => Some VUndefined
  end.

(** A text that passes through [localStorage], represented by what
    [JSON.parse] makes of it: [Malformed s] is a text [s] on which
    [JSON.parse] throws a SyntaxError (the empty text is one), [Json v] a JSON
    text that [JSON.parse] reads as [v]. *)
Inductive text :=
| Malformed (s : string)
| Json (v : value).

Definition JSON_parse (t : text) : option value :=
  match t with
  | Malformed _ => None
  | Json v => Some v
  end.

(** The truthiness of a string: every text but the empty one. *)
Definition truthy (t : text) : bool :=
  match t with
  | Malformed s => negb (isEmpty s)
  | Json _ => true
  end.

(** What [JSON.parse] reads back from [JSON.stringify(v)]: a number that is
    not finite is written [null], [-0] is written [0], a property whose value
    is [undefined] is left out and an [undefined] array element is written
    [null]; everything else, the order of the properties included, is kept. *)
Fixpoint JSON_image (v : value) : value :=
  match v with
  | VNumber x =>
      match x with
      | S754_finite _ _ _ => v
      | S754_zero _ => VNumber zero
      | _ => VNull
      end
  | VArray elems =>
      VArray (map (fun x => match JSON_image x with
                            | VUndefined => VNull
                            | y => y
                            end) elems)
  | VObject fields =>
      VObject ((fix go (l : list (string * value)) : list (string * value) :=
                  match l with
                  | [] => []
                  | (k, x) :: l' =>
                      match JSON_image x with
                      | VUndefined => go l'
                      | y => (k, y) :: go l'
                      end
                  end) fields)
  | _ => v
  end.

(** [JSON.stringify(v)] for an object or array [v]. *)
Definition JSON_stringify (v : value) : text := Json (JSON_image v).

(** *** Arrays *)

Section Sort.
Context {A : Type} (comparefn : A -> A -> Z).

Fixpoint insert (x : A) (l : list A) : list A :=
  match l with
  | [] => [x]
  | y :: l' => if 0 <? comparefn x y then y :: insert x l' else x :: l
  end.

(** [[...l].sort(comparefn)]: the sort is stable, and every stable sort
    yields the same array when [comparefn] is a consistent comparator.  When
    it is not, the language leaves the order to the engine; this one is an
    insertion sort, which is one of the orders an engine may give. *)
Fixpoint Array_sort (l : list A) : list A :=
  match l with
  | [] => []
  | x :: l' => insert x (Array_sort l')
  end.
End Sort.

(** *** More of the run time: truthiness, integers, fixed-point notation *)

(** [x === y] on numbers *)
Definition eqb (x y : number) : bool := SFeqb x y.

(** [Boolean(v)]: [undefined], [null], [false], [0], [-0], [NaN] and the
    empty string are falsy. *)
Definition ToBoolean (v : value) : bool :=
  match v with
  | VUndefined | VNull => false
  | VBool b => b
  | VNumber (S754_zero _) | VNumber S754_nan => false
  | VNumber _ => true
  | VString s => negb (isEmpty s)
  | VArray _ | VObject _ => true
  end.

(** [parseInt(s, 10)]: leading white space is skipped, an optional sign and
    the longest run of digits are read; [NaN] without a digit. *)
Definition parseInt10 (s : string) : number :=
  let '(neg, u) := takeSign (trimStart s) in
  let '(ds, _) := takeDigits u in
  if isEmpty ds then NaN else of_decimal neg (digitsValue 0 ds) 0.

(** [s.replace(/,/g, '')] *)
Fixpoint removeCommas (s : string) : string :=
  match s with
  | EmptyString => EmptyString
  | String c s' => if Ascii.eqb c "," then removeCommas s' else String c (removeCommas s')
  end.

(** The digits of [n] with a point before the last [f] of them, zeros being
    put in front when there are not more than [f]. *)
Definition fixedDigits (n : Z) (f : nat) : string :=
  let m := digitsOf n in
  match f with
  | O => m
  | S _ =>
      let m := if (String.length m <=? f)%nat
               then zeros (f + 1 - String.length m) +:+ m else m in
      String.substring 0 (String.length m - f) m +:+ "." +:+
      String.substring (String.length m - f) f m
  end.

(** [x.toFixed(f)] for [f] from 0 to 100: the integer [n] nearest to
    [x * 10^f], the larger one on a tie, written with [f] digits after the
    point; a number of 1e21 or more, or one that is not finite, is written as
    [String] writes it. *)
Definition Number_toFixed (x : number) (f : nat) : string :=
  match x with
  | S754_finite neg m e =>
      let '(num, den) := ratio m e in
      if ge_pow10 num den 21 then Number_toString x
      else (if neg then "-" else "") +:+
           fixedDigits ((2 * num * 10 ^ Z.of_nat f + den) / (2 * den)) f
  | S754_zero _ => fixedDigits 0 f
  | _ => Number_toString x
  end.

(** The order of [sort()] without a comparator, on strings. *)
Definition defaultCompare (a b : string) : Z :=
  if String_lt a b then -1 else if String_lt b a then 1 else 0.

(** [Array.from(new Set(l))]: the first occurrence of each element, in the
    order of [l]. *)
Fixpoint distinct (l : list string) : list string :=
  match l with
  | [] => []
  | x :: l' => x :: List.filter (fun y => negb (String.eqb x y)) (distinct l')
  end.

End JS.

Import JS.

(** ** types *)

(** A raw price, as [parsePrice] declares its argument: a string, a number,
    [undefined] or [null]. *)
Inductive rawPrice :=
| PriceUndefined
| PriceNull
| PriceNumber (x : number)
| PriceString (s : string).

Record Pricing := {
  prompt : rawPrice;   (* usually a per-token string; [PriceUndefined] when absent *)
  completion : rawPrice
}.

Module OpenRouterModel.
Record t := {
  id : string;
  name : string;
  context_length : option number;   (* [None]: absent *)
  pricing : option Pricing          (* [None]: absent *)
}.
End OpenRouterModel.

Module UnifiedModelData.
Record t := {
  id : string;
  name : string;
  provider : string;
  inputPricePerMillion : number;
  outputPricePerMillion : number;
  contextWindow : number
}.
End UnifiedModelData.

Record CostCalculation := {
  model : UnifiedModelData.t;
  inputCost : number;
  outputCost : number;
  totalCost : number
}.

Inductive SortField :=
| ByName | ByProvider | ByInputPrice | ByOutputPrice | ByTotalCost | ByContextWindow.

Inductive SortOrder := asc | desc.

(** ** services/apiService *)

Definition CACHE_DURATION : number := mul (mul (int 1000) (int 60)) (int 60).

Definition guessProvider (id name : string) : string :=
  let lowerId := String_toLowerCase id in
  if String_startsWith lowerId "openai/" then "OpenAI"
  else if String_startsWith lowerId "google/" then "Google"
  else if String_startsWith lowerId "anthropic/" then "Anthropic"
  else if String_startsWith lowerId "mistral" then "Mistral"
  else if String_startsWith lowerId "meta-llama/" then "Meta"
  else if String_startsWith lowerId "meta/" then "Meta"
  else if String_startsWith lowerId "cohere/" then "Cohere"
  else if String_startsWith lowerId "deepseek/" then "DeepSeek"
  else if String_startsWith lowerId "qwen/" then "Alibaba"
  else if String_startsWith lowerId "microsoft/" then "Microsoft"
  else if String_startsWith lowerId "perplexity/" then "Perplexity"
  else
    let parts := String_split id "/" in
    if (1 <? length parts)%nat then
      let key := String_toLowerCase (hd EmptyString parts) in
      String_toUpperCase (String_charAt0 key) +:+ String_slice1 key
    else "Other".

(** [String(value)] on a raw price. *)
Definition priceText (value : rawPrice) : string :=
  match value with
  | PriceUndefined => "undefined"
  | PriceNull => "null"
  | PriceNumber x => Number_toString x
  | PriceString s => s
  end.

Definition parsePrice (value : rawPrice) : number :=
  match value with
  | PriceUndefined | PriceNull => zero
  | _ =>
      let parsed := parseFloat (priceText value) in
      if isNaN parsed then zero
      else Math_max zero parsed
  end.

(** [x || 0] on an optional number: [0], [-0] and [NaN] are falsy. *)
Definition orZero (x : option number) : number :=
  match x with
  | None => zero
  | Some (S754_zero _) | Some S754_nan => zero
  | Some y => y
  end.

(** [pricing?.prompt] and [pricing?.completion] *)
Definition promptOf (pricing : option Pricing) : rawPrice :=
  match pricing with Some p => prompt p | None => PriceUndefined end.
Definition completionOf (pricing : option Pricing) : rawPrice :=
  match pricing with Some p => completion p | None => PriceUndefined end.

(** The callback of [rawModels.map] in [fetchModels]. *)
Definition normalize (m : OpenRouterModel.t) : UnifiedModelData.t :=
  let pricing := OpenRouterModel.pricing m in
  let promptPrice := parsePrice (promptOf pricing) in
  let completionPrice := parsePrice (completionOf pricing) in
  {| UnifiedModelData.id := OpenRouterModel.id m;
     UnifiedModelData.name := OpenRouterModel.name m;
     UnifiedModelData.provider :=
       guessProvider (OpenRouterModel.id m) (OpenRouterModel.name m);
     UnifiedModelData.inputPricePerMillion := mul promptPrice (int 1000000);
     UnifiedModelData.outputPricePerMillion := mul completionPrice (int 1000000);
     UnifiedModelData.contextWindow := orZero (OpenRouterModel.context_length m) |}.

(** A model record as a run-time object, and an array of them. *)
Definition modelValue (m : UnifiedModelData.t) : value :=
  VObject [("id", VString (UnifiedModelData.id m));
           ("name", VString (UnifiedModelData.name m));
           ("provider", VString (UnifiedModelData.provider m));
           ("inputPricePerMillion", VNumber (UnifiedModelData.inputPricePerMillion m));
           ("outputPricePerMillion", VNumber (UnifiedModelData.outputPricePerMillion m));
           ("contextWindow", VNumber (UnifiedModelData.contextWindow m))].

Definition modelsValue (l : list UnifiedModelData.t) : value :=
  VArray (map modelValue l).

(** What the catalog request comes to. *)
Inductive response_body :=
| Unparsable                                (* [response.json()] rejects *)
| Nullish                                   (* the body is [null]: reading [data] throws *)
| DataNotArray                              (* [json.data] is not an array *)
| Data (rawModels : list OpenRouterModel.t).

Inductive network :=
| Unreachable                               (* [fetch] rejects *)
| Response (ok : bool) (statusText : string) (body : response_body).

Inductive error :=
| FetchError                                (* the rejection of [fetch] *)
| Error (message : string)
| SyntaxError
| TypeError.

Inductive outcome (A : Type) :=
| Return (a : A)
| Throw (e : error).
Arguments Return {A} a.
Arguments Throw {A} e.

(** The surroundings of one call of [fetchModels]: the text under
    [CACHE_KEY], if any; what [Date.now()] gives at the freshness test and at
    the write; what the network does if asked. *)
Record world := {
  cached : option text;
  now : number;
  net : network;
  later : number
}.

(** One call of [fetchModels]: what the promise settles to, the text under
    [CACHE_KEY] afterwards, and whether [fetch] was called. *)
Record run := {
  settled : outcome value;
  storage : option text;
  fetched : bool
}.

(** The body of the second [try] up to the normalized models. *)
Definition fetchFresh (n : network) : outcome (list UnifiedModelData.t) :=
  match n with
  | Unreachable => Throw FetchError
  | Response false statusText _ => Throw (Error ("Failed to fetch models: " +:+ statusText))
  | Response true _ Unparsable => Throw SyntaxError
  | Response true _ Nullish => Throw TypeError
  | Response true _ DataNotArray =>
      Throw (Error "Invalid API response structure: data is not an array")
  | Response true _ (Data rawModels) => Return (map normalize rawModels)
  end.

(** The first block: [Some v] when the cache is fresh and [v], the [models]
    member of the parsed text, is returned (the member can be read, as
    [timestamp] could); otherwise [None].  The second component is the
    storage as the block leaves it: whatever the block throws, be it in
    parsing the text, in reading [timestamp] or in converting it for the
    subtraction, is caught and the item removed. *)
Definition checkCache (w : world) : option value * option text :=
  match cached w with
  | Some t =>
      if truthy t then
        match JSON_parse t with
        | Some parsedCache =>
            match getMember parsedCache "timestamp" with
            | Some timestamp =>
                match ToNumber timestamp with
                | Some t =>
                    if lt (sub (now w) t) CACHE_DURATION
                    then (getMember parsedCache "models", cached w)
                    else (None, cached w)
                | None => (None, None)      (* caught: the item is removed *)
                end
            | None => (None, None)          (* caught: the item is removed *)
            end
        | None => (None, None)              (* caught: the item is removed *)
        end
      else (None, cached w)
  | None => (None, None)
  end.

(** The [catch] of the second [try]: the stale cache if it can be read. *)
Definition staleFallback (w : world) (e : error) : outcome value :=
  match cached w with
  | Some t =>
      if truthy t then
        match JSON_parse t with
        | Some parsed =>
            match getMember parsed "models" with
            | Some models => Return models
            | None => Throw e
            end
        | None => Throw e
        end
      else Throw e
  | None => Throw e
  end.

Definition fetchModels (w : world) : run :=
  match checkCache w with
  | (Some models, st) => {| settled := Return models; storage := st; fetched := false |}
  | (None, st) =>
      match fetchFresh (net w) with
      | Return normalizedModels =>
          let cacheData :=
            VObject [("timestamp", VNumber (later w));
                     ("models", modelsValue normalizedModels)] in
          {| settled := Return (modelsValue normalizedModels);
             storage := Some (JSON_stringify cacheData);
             fetched := true |}
      | Throw e =>
          {| settled := staleFallback w e; storage := st; fetched := true |}
      end
  end.

Definition calculateModelCost (m : UnifiedModelData.t) (inputTokens outputTokens : number)
  : CostCalculation :=
  let inputCost := mul (div inputTokens (int 1000000)) (UnifiedModelData.inputPricePerMillion m) in
  let outputCost := mul (div outputTokens (int 1000000)) (UnifiedModelData.outputPricePerMillion m) in
  {| model := m;
     inputCost := inputCost;
     outputCost := outputCost;
     totalCost := add inputCost outputCost |}.

(** ** App: derived state *)

(** [selectedModelIds.has(id)] *)
Definition has (selectedModelIds : gset string) (id : string) : bool :=
  bool_decide (id ∈ selectedModelIds).

Definition allCosts (models : list UnifiedModelData.t) (inputTokens outputTokens : number)
  : list CostCalculation :=
  map (fun m => calculateModelCost m inputTokens outputTokens) models.

(** [valA] and [valB] of the comparator: a number or a string. *)
Inductive sortValue :=
| NumberValue (x : number)
| StringValue (s : string).

Definition sortKey (sortField : SortField) (d : CostCalculation) : sortValue :=
  match sortField with
  | ByName => StringValue (UnifiedModelData.name (model d))
  | ByProvider => StringValue (UnifiedModelData.provider (model d))
  | ByContextWindow => NumberValue (UnifiedModelData.contextWindow (model d))
  | ByInputPrice => NumberValue (UnifiedModelData.inputPricePerMillion (model d))
  | ByOutputPrice => NumberValue (UnifiedModelData.outputPricePerMillion (model d))
  | ByTotalCost => NumberValue (totalCost d)
  end.

(** [valA < valB]: two strings compare as strings, anything else as
    numbers. *)
Definition lessThan (valA valB : sortValue) : bool :=
  match valA, valB with
  | StringValue a, StringValue b => String_lt a b
  | NumberValue a, NumberValue b => lt a b
  | NumberValue a, StringValue b => lt a (StringToNumber b)
  | StringValue a, NumberValue b => lt (StringToNumber a) b
  end.

(** The comparator handed to [sort] in [tableData]. *)
Definition compareRows (selectedModelIds : gset string) (sortField : SortField)
    (sortOrder : SortOrder) (a b : CostCalculation) : Z :=
  let isSelectedA := has selectedModelIds (UnifiedModelData.id (model a)) in
  let isSelectedB := has selectedModelIds (UnifiedModelData.id (model b)) in
  if isSelectedA && negb isSelectedB then -1
  else if negb isSelectedA && isSelectedB then 1
  else
    let valA := sortKey sortField a in
    let valB := sortKey sortField b in
    if lessThan valA valB then match sortOrder with asc => -1 | desc => 1 end
    else if lessThan valB valA then match sortOrder with asc => 1 | desc => -1 end
    else 0.

Definition tableData (allCosts : list CostCalculation) (selectedProvider search : string)
    (sortField : SortField) (sortOrder : SortOrder) (selectedModelIds : gset string)
  : list CostCalculation :=
  let data := allCosts in
  let data :=
    if negb (String.eqb selectedProvider "All")
    then List.filter (fun d => String.eqb (UnifiedModelData.provider (model d)) selectedProvider) data
    else data in
  let data :=
    if negb (isEmpty search) then
      let q := String_toLowerCase search in
      List.filter (fun d =>
        String_includes (String_toLowerCase (UnifiedModelData.name (model d))) q ||
        String_includes (String_toLowerCase (UnifiedModelData.id (model d))) q) data
    else data in
  Array_sort (compareRows selectedModelIds sortField sortOrder) data.

Definition chartData (allCosts : list CostCalculation) (selectedProvider search : string)
    (sortField : SortField) (sortOrder : SortOrder) (selectedModelIds : gset string)
  : list CostCalculation :=
  if (0 <? size selectedModelIds)%nat
  then List.filter (fun d => has selectedModelIds (UnifiedModelData.id (model d))) allCosts
  else tableData allCosts selectedProvider search sortField sortOrder selectedModelIds.

Definition isSelectionMode (selectedModelIds : gset string) : bool :=
  (0 <? size selectedModelIds)%nat.

(** ** components/CostChart *)

Module ChartPoint.
Record t := {
  name : string;
  fullName : string;
  input : number;
  output : number;
  total : number;
  provider : string
}.
End ChartPoint.

(** [item.model.name.split('/').pop() || item.model.name] *)
Definition shortName (name : string) : string :=
  let last := List.last (String_split name "/") EmptyString in
  if isEmpty last then name else last.

Definition chartPoint (rate : number) (item : CostCalculation) : ChartPoint.t :=
  {| ChartPoint.name := shortName (UnifiedModelData.name (model item));
     ChartPoint.fullName := UnifiedModelData.name (model item);
     ChartPoint.input := mul (inputCost item) rate;
     ChartPoint.output := mul (outputCost item) rate;
     ChartPoint.total := mul (totalCost item) rate;
     ChartPoint.provider := UnifiedModelData.provider (model item) |}.

(** The records the chart draws: all of [data] in selection mode, the first
    fifteen of positive total cost otherwise. *)
Definition chartRows (data : list CostCalculation) (isSelectionMode : bool)
  : list CostCalculation :=
  if isSelectionMode then data
  else firstn 15 (List.filter (fun item => gt (totalCost item) zero) data).

(** [chartData] of the component. *)
Definition CostChart (data : list CostCalculation) (rate : number) (isSelectionMode : bool)
  : list ChartPoint.t :=
  map (chartPoint rate) (chartRows data isSelectionMode).

(** The chart as [App] renders it. *)
Definition chartView (allCosts : list CostCalculation) (selectedProvider search : string)
    (sortField : SortField) (sortOrder : SortOrder) (selectedModelIds : gset string)
  : list CostCalculation :=
  chartRows (chartData allCosts selectedProvider search sortField sortOrder selectedModelIds)
            (isSelectionMode selectedModelIds).

(** ** App: state and handlers *)

Definition handleToggleSelection (selectedModelIds : gset string) (id : string)
  : gset string :=
  if has selectedModelIds id then selectedModelIds ∖ {[id]}
  else selectedModelIds ∪ {[id]}.

Definition clearSelection : gset string := ∅.

#[global] Instance SortField_eq_dec : EqDecision SortField.
Proof. solve_decision. Defined.

(** The sort field and order after a click on the header of [field]. *)
Definition handleSort (sortField : SortField) (sortOrder : SortOrder) (field : SortField)
  : SortField * SortOrder :=
  if bool_decide (sortField = field)
  then (sortField, match sortOrder with asc => desc | desc => asc end)
  else (field, asc).

(** The options of the provider filter. *)
Definition providers (models : list UnifiedModelData.t) : list string :=
  "All" :: Array_sort defaultCompare (distinct (map UnifiedModelData.provider models)).

Module AppState.
Record t := {
  models : value;               (* what [fetchModels] last gave *)
  loading : bool;
  error : option string;
  lastUpdated : number
}.
End AppState.

(** The state once [loadData] has run in the world [w]; [clock] is
    [Date.now()] after the load. *)
Definition loadData (st : AppState.t) (w : world) (clock : number) : AppState.t :=
  match settled (fetchModels w) with
  | Return data =>
      {| AppState.models := data;
         AppState.loading := false;
         AppState.error := None;
         AppState.lastUpdated := clock |}
  | Throw _ =>
      {| AppState.models := AppState.models st;
         AppState.loading := false;
         AppState.error :=
           Some "Failed to fetch pricing data. Please check your connection.";
         AppState.lastUpdated := AppState.lastUpdated st |}
  end.

Inductive Currency := USD | INR.

(** What the exchange-rate request comes to: [fetch] or [res.json()]
    rejects, or the body is read as [data]. *)
Inductive rate_response :=
| RateFailed
| RateData (data : value).

(** [data.rates] and [data.rates.INR], reached only through truthy values. *)
Definition ratesOf (data : value) : value :=
  match getMember data "rates" with Some v => v | None => VUndefined end.
Definition inrOf (data : value) : value :=
  match getMember (ratesOf data) "INR" with Some v => v | None => VUndefined end.

(** The exchange rate after the effect on [currency] has run. *)
Definition fetchRate (currency : Currency) (res : rate_response) (exchangeRate : value)
  : value :=
  match currency with
  | INR =>
      match res with
      | RateData data =>
          if ToBoolean data && ToBoolean (ratesOf data) && ToBoolean (inrOf data)
          then inrOf data
          else exchangeRate
      | RateFailed => VNumber (int 84)
      end
  | USD => VNumber (int 1)
  end.

(** ** components/InputCard *)

(** What [handleChange] passes to [onChange] for the text of the input, if
    it calls it at all. *)
Definition handleChange (text : string) : option number :=
  let val := parseInt10 (removeCommas text) in
  if negb (isNaN val) then Some val
  else if isEmpty text then Some zero
  else None.

(** ** components/CostChart: labels *)

Definition truncateText (text : string) (maxLength : nat) : string :=
  if (String.length text <=? maxLength)%nat then text
  else String.substring 0 maxLength text +:+ "...".

(** ** components/ComparisonTable *)

(** [formatPrice]: [None] stands for [null]. *)
Definition formatPrice (symbol : string) (rate : number) (val : number) (isTotal : bool)
  : option string :=
  if eqb val zero then None
  else
    let converted := mul val rate in
    if isTotal then Some (symbol +:+ Number_toFixed converted 6)
    else Some (symbol +:+ Number_toFixed converted 2).

(** The context cell of a row. *)
Definition contextCell (contextWindow : number) : string :=
  if gt contextWindow zero
  then Number_toFixed (div contextWindow (int 1000)) 0 +:+ "k"
  else "-".

(** The price cells of a row: [None] stands for the "Free" badge. *)
Definition priceCell (symbol : string) (rate : number) (price : number) (isTotal : bool)
  : option (option string) :=
  if eqb price zero then None else Some (formatPrice symbol rate price isTotal).

(** ** Predicates used in the statements *)

(** [x] is not [NaN] and carries the sign bit [neg]. *)
Definition hasSign (neg : bool) (x : number) : bool :=
  match x with
  | S754_zero s | S754_infinity s | S754_finite s _ _ => Bool.eqb s neg
  | S754_nan => false
  end.

(** A raw price field that is absent, or whose text has no numeric prefix,
    or whose text reads as a negative number. *)
Definition noPrice (v : rawPrice) : bool :=
  match v with
  | PriceUndefined | PriceNull => true
  | _ => isNaN (parseFloat (priceText v)) || lt (parseFloat (priceText v)) zero
  end.

Fixpoint allDigits (s : string) : bool :=
  match s with
  | EmptyString => true
  | String c s' => isDigit c && allDigits s'
  end.

Fixpoint allWhite (s : string) : bool :=
  match s with
  | EmptyString => true
  | String c s' => isWhiteSpace c && allWhite s'
  end.

(** *** Numeric literals

    The texts that [parseFloat] reads (StrDecimalLiteral): an optional sign
    and then [Infinity], or digits with an optional point, fraction and
    exponent part, or a point with a fraction and an optional exponent
    part. *)

Inductive signMark := NoSign | PlusSign | MinusSign.

Definition signText (s : signMark) : string :=
  match s with NoSign => "" | PlusSign => "+" | MinusSign => "-" end.

Definition isMinus (s : signMark) : bool :=
  match s with MinusSign => true | _ => false end.

(** An exponent part: [e] or [E], a sign, digits. *)
Record exponentPart := {
  capital : bool;
  exponentSign : signMark;
  exponentDigits : string
}.

Record decimal := {
  integerDigits : string;
  point : bool;
  fractionDigits : string;
  exponent : option exponentPart
}.

Inductive literal :=
| LInfinity
| LDecimal (d : decimal).

(** There is a digit before or after the point, digits after it only if
    there is a point, and a digit in the exponent part. *)
Definition wellFormed (l : literal) : bool :=
  match l with
  | LInfinity => true
  | LDecimal d =>
      allDigits (integerDigits d) && allDigits (fractionDigits d) &&
      negb (isEmpty (integerDigits d) && isEmpty (fractionDigits d)) &&
      (point d || isEmpty (fractionDigits d)) &&
      match exponent d with
      | Some x => allDigits (exponentDigits x) && negb (isEmpty (exponentDigits x))
      | None => true
      end
  end.

(** The text of a literal, followed by [tail]. *)
Definition exponentThen (x : option exponentPart) (tail : string) : string :=
  match x with
  | Some x =>
      (if capital x then "E" else "e") +:+ signText (exponentSign x) +:+
      exponentDigits x +:+ tail
  | None => tail
  end.

Definition literalThen (l : literal) (tail : string) : string :=
  match l with
  | LInfinity => "Infinity" +:+ tail
  | LDecimal d =>
      integerDigits d +:+
      (if point d then "." +:+ fractionDigits d +:+ exponentThen (exponent d) tail
       else exponentThen (exponent d) tail)
  end.

Definition exponentValue (x : option exponentPart) : Z :=
  match x with
  | Some x =>
      if isMinus (exponentSign x) then - Z.of_N (digitsValue 0 (exponentDigits x))
      else Z.of_N (digitsValue 0 (exponentDigits x))
  | None => 0
  end.

(** The number a literal denotes, with the sign [neg]: the nearest to its
    digits scaled by its power of ten. *)
Definition literalValue (neg : bool) (l : literal) : number :=
  match l with
  | LInfinity => S754_infinity neg
  | LDecimal d =>
      of_decimal neg (digitsValue 0 (integerDigits d +:+ fractionDigits d))
                 (exponentValue (exponent d) - Z.of_nat (String.length (fractionDigits d)))
  end.

Definition startsWithDigit (s : string) : bool :=
  match s with
  | String c _ => isDigit c
  | EmptyString => false
  end.

(** [s] starts with an exponent part. *)
Definition startsExponent (s : string) : bool :=
  match s with
  | String c t =>
      (Ascii.eqb c "e" || Ascii.eqb c "E") && startsWithDigit (snd (takeSign t))
  | EmptyString => false
  end.

(** What follows the literal is read as part of the number: the tail
    starts with a digit; or the literal has no exponent part and the tail
    starts with one; or the literal has neither point nor exponent part and
    the tail starts with a point that a digit or an exponent part follows.
    Nothing continues [Infinity]. *)
Definition continues (l : literal) (tail : string) : bool :=
  match l with
  | LInfinity => false
  | LDecimal d =>
      startsWithDigit tail ||
      match exponent d with
      | Some _ => false
      | None =>
          startsExponent tail ||
          (negb (point d) &&
           match tail with
           | String c t => Ascii.eqb c "." && (startsWithDigit t || startsExponent t)
           | EmptyString => false
           end)
      end
  end.

(** A model with the given id, provider and prices per million tokens. *)
Definition priced (id provider : string) (inputPrice outputPrice : number)
  : UnifiedModelData.t :=
  {| UnifiedModelData.id := id;
     UnifiedModelData.name := id;
     UnifiedModelData.provider := provider;
     UnifiedModelData.inputPricePerMillion := inputPrice;
     UnifiedModelData.outputPricePerMillion := outputPrice;
     UnifiedModelData.contextWindow := zero |}.

(** [d] is one of the selected records. *)
Definition selected (selectedModelIds : gset string) (d : CostCalculation) : bool :=
  has selectedModelIds (UnifiedModelData.id (model d)).

(** What the stale cache gives when [fetchModels] falls back on it: the
    [models] member of the parsed text, when there is a text, it parses, and
    the parsed value is not [null]. *)
Definition usable (c : option text) : option value :=
  match c with
  | Some t =>
      match JSON_parse t with
      | Some v => getMember v "models"
      | None => None
      end
  | None => None
  end.

(** The first block of [fetchModels] reads the stored text without
    throwing: the text parses to a value other than [null], and the
    [timestamp] of that value can be converted to a number. *)
Definition readable (c : option text) : bool :=
  match c with
  | Some t =>
      match JSON_parse t with
      | Some v =>
          match getMember v "timestamp" with
          | Some timestamp =>
              match ToNumber timestamp with Some _ => true | None => false end
          | None => false
          end
      | None => false
      end
  | None => false
  end.

(** The stored text after a first block that has not returned: a text that
    is read stays, and so does the empty text, which is not looked at; any
    other text is removed. *)
Definition afterCheck (c : option text) : option text :=
  if readable c then c
  else match c with
       | Some t => if truthy t then None else c
       | None => None
       end.

Definition finiteNumbers (m : UnifiedModelData.t) : bool :=
  isFinite (UnifiedModelData.inputPricePerMillion m) &&
  isFinite (UnifiedModelData.outputPricePerMillion m) &&
  isFinite (UnifiedModelData.contextWindow m).

(** A number that [JSON.stringify] writes and [JSON.parse] reads back as it
    is: a finite one that is not [-0]. *)
Definition plainNumber (x : number) : bool :=
  match x with
  | S754_finite _ _ _ | S754_zero false => true
  | _ => false
  end.

(** A catalog entry priced beyond the largest number. *)
Definition overpriced : OpenRouterModel.t :=
  {| OpenRouterModel.id := "acme/model";
     OpenRouterModel.name := "Model";
     OpenRouterModel.context_length := None;
     OpenRouterModel.pricing :=
       Some {| prompt := PriceString "1e400"; completion := PriceString "0" |} |}.





(** A catalog entry with textual prices. *)
Definition entry (id : string) (prompt completion : string) : OpenRouterModel.t :=
  {| OpenRouterModel.id := id;
     OpenRouterModel.name := id;
     OpenRouterModel.context_length := None;
     OpenRouterModel.pricing :=
       Some {| prompt := PriceString prompt; completion := PriceString completion |} |}.


(** The number that the numeric literal [s] denotes. *)
Definition lit (s : string) : number := StringToNumber s.

(** The raw entry of the worked example. *)
Definition claude3 (name : string) (context_length : option number)
  : OpenRouterModel.t :=
  {| OpenRouterModel.id := "anthropic/claude-3";
     OpenRouterModel.name := name;
     OpenRouterModel.context_length := context_length;
     OpenRouterModel.pricing :=
       Some {| prompt := PriceString "0.000003"; completion := PriceString "0.000015" |} |}.

(** The known prefixes of [guessProvider] and their labels. *)
Definition knownProviders : list (string * string) :=
  [("openai/", "OpenAI"); ("google/", "Google"); ("anthropic/", "Anthropic");
   ("mistral", "Mistral"); ("meta-llama/", "Meta"); ("meta/", "Meta");
   ("cohere/", "Cohere"); ("deepseek/", "DeepSeek"); ("qwen/", "Alibaba");
   ("microsoft/", "Microsoft"); ("perplexity/", "Perplexity")].

(** [x] is [NaN] or carries no minus sign. *)
Definition notNegative (x : number) : bool :=
  match x with
  | S754_nan => true
  | _ => hasSign false x
  end.

(** The row [d] passes the provider filter and the search of the table. *)
Definition rowShown (selectedProvider search : string) (d : CostCalculation) : bool :=
  (String.eqb selectedProvider "All" ||
   String.eqb (UnifiedModelData.provider (model d)) selectedProvider) &&
  (isEmpty search ||
   String_includes (String_toLowerCase (UnifiedModelData.name (model d)))
                   (String_toLowerCase search) ||
   String_includes (String_toLowerCase (UnifiedModelData.id (model d)))
                   (String_toLowerCase search)).

(** The first character of [s], if there is one, has its capital among the
    code units below 256. *)
Definition firstUpperInRange (s : string) : bool :=
  match s with
  | String c _ => upperInRange c
  | EmptyString => true
  end.

(** [parts.join(sep)] for a separator of one character. *)
Fixpoint String_join (parts : list string) (sep : ascii) : string :=
  match parts with
  | [] => EmptyString
  | p :: ps =>
      match ps with
      | [] => p
      | _ :: _ => p +:+ String sep (String_join ps sep)
      end
  end.

Fixpoint digitsOrCommas (s : string) : bool :=
  match s with
  | EmptyString => true
  | String c s' => (isDigit c || Ascii.eqb c ",") && digitsOrCommas s'
  end.

(** [x] is finite and below 1e21 in magnitude: [toFixed] writes it in
    fixed-point notation. *)
Definition fixedRange (x : number) : bool :=
  match x with
  | S754_zero _ => true
  | S754_finite _ m e => let '(num, den) := ratio m e in negb (ge_pow10 num den 21)
  | _ => false
  end.

(** * Properties *)

(** ** The run time on small inputs *)

Example parseFloat_plain : parseFloat "0.000003" = of_decimal false 3 (-6).
Proof. vm_compute. reflexivity. Qed.

Example parseFloat_exponent : parseFloat "  -12.5e-1x" = lit "-1.25".
Proof. vm_compute. reflexivity. Qed.

Example parseFloat_no_digits :
  map parseFloat ["abc"; "."; "e5"; ""] = [NaN; NaN; NaN; NaN].
Proof. vm_compute. reflexivity. Qed.

Example parseFloat_overflow : parseFloat "1e400" = Infinity.
Proof. vm_compute. reflexivity. Qed.

Example Number_toString_samples :
  map (fun s => Number_toString (lit s))
      ["0.000003"; "1e21"; "1.5e-7"; "123456789012345680000"; "0.1"; "-0"; "1e400"] =
  ["0.000003"; "1e+21"; "1.5e-7"; "123456789012345680000"; "0.1"; "0"; "Infinity"].
Proof. vm_compute. reflexivity. Qed.

Example StringToNumber_samples :
  map StringToNumber [""; " 12 "; "12px"; "0x1F"] = [zero; int 12; NaN; int 31].
Proof. vm_compute. reflexivity. Qed.

Example parsePrice_of_number : parsePrice (PriceNumber (lit "0.000005")) = lit "0.000005".
Proof. vm_compute. reflexivity. Qed.

Example guessProvider_samples :
  map (fun id => guessProvider id "")
      ["openai/gpt-4"; "OpenAI/GPT-4"; "mistralai/mixtral"; "meta-llama/llama-3";
       "x-ai/grok"; "plain"] =
  ["OpenAI"; "OpenAI"; "Mistral"; "Meta"; "X-ai"; "Other"].
Proof. vm_compute. reflexivity. Qed.

Example zero_times_Infinity : mul zero Infinity = NaN.
Proof. reflexivity. Qed.

Example expired_cache_is_refreshed :
  let stale := VObject [("timestamp", VNumber (int 0)); ("models", VArray [])] in
  let r := fetchModels {| cached := Some (Json stale); now := int 3600000;
                          net := Response true "OK" (Data []); later := int 3600001 |} in
  fetched r = true /\ settled r = Return (VArray []) /\
  storage r = Some (Json (VObject [("timestamp", VNumber (int 3600001));
                                   ("models", VArray [])])).
Proof. vm_compute. repeat split; reflexivity. Qed.

Example malformed_cache_is_cleared :
  let r := fetchModels {| cached := Some (Malformed "{oops"); now := int 0;
                          net := Unreachable; later := int 0 |} in
  settled r = Throw FetchError /\ storage r = None.
Proof. split; reflexivity. Qed.

(** Twenty cost-positive records and no selection: the chart shows fifteen. *)
Example chart_caps_at_fifteen :
  let costs := allCosts (repeat (priced "a/one" "A" (int 1) zero) 20) (int 1000000) zero in
  length (chartView costs "All" "" ByTotalCost asc ∅) = 15%nat /\
  length (CostChart (chartData costs "All" "" ByTotalCost asc ∅) (int 1)
                    (isSelectionMode ∅)) = 15%nat.
Proof. split; vm_compute; reflexivity. Qed.

(** ** Numbers *)

Section Rounding.
Local Abbreviation shr_fexp := (SpecFloat.shr_fexp prec emax).
Local Abbreviation binary_round_aux := (SpecFloat.binary_round_aux prec emax).

Lemma shr_1_nonneg mrs : 0 <= shr_m mrs -> 0 <= shr_m (shr_1 mrs).
Proof.
  destruct mrs as [m r s]; simpl.
  destruct m as [|[p|p|]|[p|p|]]; simpl; lia.
Qed.

Lemma iter_shr_1_nonneg p : forall mrs,
  0 <= shr_m mrs -> 0 <= shr_m (SpecFloat.iter_pos shr_1 p mrs).
Proof.
  induction p as [p IH|p IH|]; intros mrs H; simpl.
  - apply IH, IH, shr_1_nonneg, H.
  - apply IH, IH, H.
  - apply shr_1_nonneg, H.
Qed.

Lemma shr_fexp_nonneg m e l : 0 <= m -> 0 <= shr_m (fst (shr_fexp m e l)).
Proof.
  intros H. unfold SpecFloat.shr_fexp, shr.
  assert (H0 : 0 <= shr_m (shr_record_of_loc m l))
    by (destruct l as [|[]]; exact H).
  destruct (_ - e); simpl; auto using iter_shr_1_nonneg.
Qed.

Lemma round_nearest_even_nonneg m l : 0 <= m -> 0 <= round_nearest_even m l.
Proof.
  intros H. destruct l as [|[]]; simpl; try lia.
  destruct (Z.even m); lia.
Qed.

Lemma binary_round_aux_sign neg m e l :
  0 <= m -> hasSign neg (binary_round_aux neg m e l) = true.
Proof.
  intros H. unfold SpecFloat.binary_round_aux.
  pose proof (shr_fexp_nonneg m e l H) as H1.
  destruct (shr_fexp m e l) as [mrs' e']; simpl in H1.
  pose proof (shr_fexp_nonneg _ e' loc_Exact
                (round_nearest_even_nonneg _ (loc_of_shr_record mrs') H1)) as H2.
  destruct (shr_fexp (round_nearest_even _ _) e' loc_Exact) as [mrs'' e''].
  simpl in H2. destruct (shr_m mrs'') as [|q|q]; simpl.
  - apply eqb_reflx.
  - destruct (e'' <=? _); simpl; apply eqb_reflx.
  - lia.
Qed.
End Rounding.

Lemma mul_sign (sx sy : bool) (x y : number) :
  hasSign sx x = true -> isFinite x = true ->
  hasSign sy y = true -> isFinite y = true ->
  hasSign (xorb sx sy) (mul x y) = true.
Proof.
  destruct x as [a| | |a m e], y as [b| | |b n f]; simpl; try discriminate;
    intros Hx _ Hy _; apply eqb_prop in Hx, Hy; subst.
  - apply eqb_reflx.
  - apply eqb_reflx.
  - apply eqb_reflx.
  - apply binary_round_aux_sign. lia.
Qed.

(** ** Strings *)

Lemma toLower_slash c : toLower c = "/"%char -> c = "/"%char.
Proof.
  destruct c as [[] [] [] [] [] [] [] []]; vm_compute; congruence.
Qed.

Lemma includes_slash_cons a s :
  String_includes (String a s) "/" = Ascii.eqb a "/" || String_includes s "/".
Proof.
  simpl. destruct (Ascii.eqb a "/"); [destruct s|]; reflexivity.
Qed.

Lemma includes_slash_lower s :
  String_includes s "/" = false ->
  String_includes (String_toLowerCase s) "/" = false.
Proof.
  induction s as [|a s IH]; [reflexivity|].
  change (String_toLowerCase (String a s))
    with (String (toLower a) (String_toLowerCase s)).
  rewrite !includes_slash_cons, !orb_false_iff. intros [Ha Hs]. split; auto.
  destruct (Ascii.eqb_spec (toLower a) "/"%char) as [E|]; [|reflexivity].
  apply toLower_slash in E. subst a. discriminate.
Qed.

Lemma prefix_slash p : forall s,
  String_startsWith s p = true -> String_includes p "/" = true ->
  String_includes s "/" = true.
Proof.
  induction p as [|x p IH]; intros s Hp Hi; [discriminate|].
  destruct s as [|a s]; [discriminate|].
  simpl in Hp. apply andb_true_iff in Hp as [Ha Hp].
  apply Ascii.eqb_eq in Ha as ->.
  rewrite includes_slash_cons in *. apply orb_true_iff in Hi as [->|Hi]; [reflexivity|].
  rewrite (IH s Hp Hi). apply orb_true_r.
Qed.

Lemma split_no_slash s :
  String_includes s "/" = false -> String_split s "/" = [s].
Proof.
  induction s as [|a s IH]; [reflexivity|].
  rewrite includes_slash_cons, orb_false_iff. intros [Ha Hs].
  simpl. rewrite Ha, (IH Hs). reflexivity.
Qed.

(** A prefix that contains a slash cannot start a text without one. *)
Lemma startsWith_slash s p :
  String_includes s "/" = false -> String_includes p "/" = true ->
  String_startsWith s p = false.
Proof.
  intros Hs Hp.
  destruct (String_startsWith s p) eqn:E; [|reflexivity].
  rewrite (prefix_slash p s E Hp) in Hs. discriminate.
Qed.

(** ** C6: the worked example *)

(** C6, as stated, fails: with [inputTokens = 20000] and
    [outputTokens = 100000] the costs of the example entry are none of
    0.00006, 0.0015 and 0.00156. *)
Lemma example_costs_not_as_claimed :
  let c := calculateModelCost (normalize (claude3 "" None)) (int 20000) (int 100000) in
  inputCost c <> lit "0.00006" /\
  outputCost c <> lit "0.0015" /\
  totalCost c <> lit "0.00156".
Proof. vm_compute. repeat split; discriminate. Qed.

(** C6, amended: the example entry normalizes to 3 and 15 per million tokens
    with provider "Anthropic", and 20000 input tokens with 100000 output
    tokens cost 0.06, 1.5 and 1.56 in total. *)
Theorem example_normalize_calculate (name : string) (context_length : option number) :
  let m := normalize (claude3 name context_length) in
  let c := calculateModelCost m (int 20000) (int 100000) in
  UnifiedModelData.inputPricePerMillion m = int 3 /\
  UnifiedModelData.outputPricePerMillion m = int 15 /\
  UnifiedModelData.provider m = "Anthropic" /\
  inputCost c = lit "0.06" /\
  outputCost c = lit "1.5" /\
  totalCost c = lit "1.56".
Proof. repeat split; vm_compute; reflexivity. Qed.

(** ** C7: provider inference *)

(** C7, as stated, fails: the id "mistral-7b" has no slash and its provider
    is "Mistral". *)
Lemma mistral_without_slash :
  String_includes "mistral-7b" "/" = false /\
  guessProvider "mistral-7b" "Mistral 7B" <> "Other".
Proof. split; [reflexivity|vm_compute; discriminate]. Qed.

(** C7, amended: for every raw entry whose id has no slash and does not
    start with "mistral" (whatever the case of its letters), [guessProvider],
    hence the normalized record, gives "Other".  Provider inference is a
    function of the entry, defined on every entry. *)
Theorem provider_other_without_slash (m : OpenRouterModel.t) :
  String_includes (OpenRouterModel.id m) "/" = false ->
  String_startsWith (String_toLowerCase (OpenRouterModel.id m)) "mistral" = false ->
  guessProvider (OpenRouterModel.id m) (OpenRouterModel.name m) = "Other" /\
  UnifiedModelData.provider (normalize m) = "Other".
Proof.
  intros Hs Hm.
  assert (G : guessProvider (OpenRouterModel.id m) (OpenRouterModel.name m) = "Other").
  { unfold guessProvider.
    pose proof (includes_slash_lower _ Hs) as Hl.
    rewrite Hm, !(startsWith_slash _ _ Hl) by reflexivity.
    rewrite (split_no_slash _ Hs). reflexivity. }
  split; [exact G|exact G].
Qed.

Lemma provider_other_without_slash_witness :
  UnifiedModelData.provider
    (normalize {| OpenRouterModel.id := "gpt-4";
                  OpenRouterModel.name := "GPT-4";
                  OpenRouterModel.context_length := None;
                  OpenRouterModel.pricing := None |}) = "Other".
Proof.
  apply (provider_other_without_slash
           {| OpenRouterModel.id := "gpt-4";
              OpenRouterModel.name := "GPT-4";
              OpenRouterModel.context_length := None;
              OpenRouterModel.pricing := None |}); reflexivity.
Defined.

(** ** C8, C9: sanitized prices and context window *)

Lemma hasSign_ge x : hasSign false x = true -> ge x zero = true.
Proof. destruct x as [[]|[]| |[] m e]; simpl; try discriminate; reflexivity. Qed.

Lemma Math_max_zero_sign x : isNaN x = false -> hasSign false (Math_max zero x) = true.
Proof. destruct x as [[]|[]| |[] m e]; simpl; try discriminate; reflexivity. Qed.

Lemma parsePrice_sign v : hasSign false (parsePrice v) = true.
Proof.
  unfold parsePrice.
  destruct v; try reflexivity;
    (destruct (isNaN _) eqn:E; [reflexivity|apply Math_max_zero_sign, E]).
Qed.

Lemma mul_million_sign p :
  hasSign false p = true -> hasSign false (mul p (int 1000000)) = true.
Proof.
  remember (int 1000000) as k eqn:E. vm_compute in E. subst k.
  destruct p as [[]|[]| |[] m e]; simpl; try discriminate; intros _; try reflexivity.
  apply binary_round_aux_sign. lia.
Qed.

Lemma noPrice_parsePrice v : noPrice v = true -> parsePrice v = zero.
Proof.
  unfold noPrice, parsePrice.
  destruct v; try reflexivity;
    (destruct (isNaN _) eqn:E; [reflexivity|]; simpl;
     destruct (parseFloat _) as [[]|[]| |[] m e]; simpl; try discriminate; reflexivity).
Qed.

(** C8, as stated, fails: the price text "0.5 per token" is not numeric, and
    the sanitized price per million is 500000, not 0. *)
Lemma non_numeric_price_kept :
  UnifiedModelData.inputPricePerMillion
    (normalize {| OpenRouterModel.id := "acme/model";
                  OpenRouterModel.name := "Model";
                  OpenRouterModel.context_length := None;
                  OpenRouterModel.pricing :=
                    Some {| prompt := PriceString "0.5 per token";
                            completion := PriceUndefined |} |}) = int 500000 /\
  int 500000 <> zero.
Proof. split; [vm_compute; reflexivity|vm_compute; discriminate]. Qed.

(** C8, amended: for every raw catalog entry both normalized prices are
    non-negative; and a price is 0 whenever its raw field is absent
    (undefined or null), has no numeric prefix ([parseFloat] gives [NaN]) or
    reads as a negative number. *)
Theorem prices_sanitized (m : OpenRouterModel.t) :
  ge (UnifiedModelData.inputPricePerMillion (normalize m)) zero = true /\
  ge (UnifiedModelData.outputPricePerMillion (normalize m)) zero = true /\
  (noPrice (promptOf (OpenRouterModel.pricing m)) = true ->
   UnifiedModelData.inputPricePerMillion (normalize m) = zero) /\
  (noPrice (completionOf (OpenRouterModel.pricing m)) = true ->
   UnifiedModelData.outputPricePerMillion (normalize m) = zero).
Proof.
  unfold normalize; simpl. repeat split.
  - apply hasSign_ge, mul_million_sign, parsePrice_sign.
  - apply hasSign_ge, mul_million_sign, parsePrice_sign.
  - intros H. rewrite (noPrice_parsePrice _ H). vm_compute. reflexivity.
  - intros H. rewrite (noPrice_parsePrice _ H). vm_compute. reflexivity.
Qed.

Lemma prices_sanitized_witness :
  let m := {| OpenRouterModel.id := "acme/model";
              OpenRouterModel.name := "Model";
              OpenRouterModel.context_length := None;
              OpenRouterModel.pricing :=
                Some {| prompt := PriceString "-1"; completion := PriceString "n/a" |} |} in
  noPrice (promptOf (OpenRouterModel.pricing m)) = true /\
  noPrice (completionOf (OpenRouterModel.pricing m)) = true /\
  UnifiedModelData.inputPricePerMillion (normalize m) = zero /\
  UnifiedModelData.outputPricePerMillion (normalize m) = zero.
Proof.
  intros m.
  assert (Hp : noPrice (promptOf (OpenRouterModel.pricing m)) = true) by reflexivity.
  assert (Hc : noPrice (completionOf (OpenRouterModel.pricing m)) = true) by reflexivity.
  destruct (prices_sanitized m) as (_ & _ & Hi & Ho).
  exact (conj Hp (conj Hc (conj (Hi Hp) (Ho Hc)))).
Defined.

(** C9, as stated, fails: the context length -1 is not positive, and the
    context window is -1, which is neither 0 nor non-negative. *)
Lemma negative_context_length_kept :
  let m := normalize {| OpenRouterModel.id := "acme/model";
                        OpenRouterModel.name := "Model";
                        OpenRouterModel.context_length := Some (int (-1));
                        OpenRouterModel.pricing := None |} in
  UnifiedModelData.contextWindow m = int (-1) /\
  UnifiedModelData.contextWindow m <> zero /\
  ge (UnifiedModelData.contextWindow m) zero = false.
Proof. vm_compute. repeat split; discriminate. Qed.

(** C9, amended: the context window is the provided context length whenever
    that is a number other than 0 and [NaN], be it positive or negative, and is
    0 when the context length is absent, 0 or [NaN]; so it is non-negative
    whenever the provided context length is not negative. *)
Theorem context_window_or_zero (m : OpenRouterModel.t) :
  let cw := UnifiedModelData.contextWindow (normalize m) in
  (OpenRouterModel.context_length m = None -> cw = zero) /\
  (forall x, OpenRouterModel.context_length m = Some x ->
     lt zero x = true -> cw = x) /\
  (forall x, OpenRouterModel.context_length m = Some x ->
     lt x zero = true -> cw = x) /\
  (forall x, OpenRouterModel.context_length m = Some x ->
     lt zero x = false -> lt x zero = false -> cw = zero) /\
  (forall x, OpenRouterModel.context_length m = Some x ->
     lt x zero = false -> ge cw zero = true).
Proof.
  unfold normalize; simpl. repeat split.
  - intros ->. reflexivity.
  - intros x -> H. destruct x as [[]|[]| |[] p e]; try discriminate; reflexivity.
  - intros x -> H. destruct x as [[]|[]| |[] p e]; try discriminate; reflexivity.
  - intros x -> H1 H2. destruct x as [[]|[]| |[] p e]; try discriminate; reflexivity.
  - intros x -> H. destruct x as [[]|[]| |[] p e]; try discriminate; reflexivity.
Qed.

Lemma context_window_or_zero_witness :
  let m := {| OpenRouterModel.id := "acme/model";
              OpenRouterModel.name := "Model";
              OpenRouterModel.context_length := Some (int 200000);
              OpenRouterModel.pricing := None |} in
  lt zero (int 200000) = true /\
  UnifiedModelData.contextWindow (normalize m) = int 200000.
Proof.
  intros m. split; [reflexivity|].
  exact (proj1 (proj2 (context_window_or_zero m)) (int 200000) eq_refl eq_refl).
Defined.

(** ** C10: what the price sanitizer reads *)

Lemma digit_facts c :
  isDigit c = true ->
  isWhiteSpace c = false /\ Ascii.eqb c "+" = false /\ Ascii.eqb c "-" = false /\
  Ascii.eqb c "I" = false.
Proof.
  destruct c as [[] [] [] [] [] [] [] []]; vm_compute; intros; repeat split; congruence.
Qed.

Lemma append_cons c s t : String c s +:+ t = String c (s +:+ t).
Proof. reflexivity. Qed.

Lemma append_empty s : s +:+ "" = s.
Proof.
  induction s as [|c s IH]; [reflexivity|]. rewrite append_cons, IH. reflexivity.
Qed.

Lemma trimStart_white ws s : allWhite ws = true -> trimStart (ws +:+ s) = trimStart s.
Proof.
  induction ws as [|c ws IH]; [reflexivity|].
  rewrite append_cons. simpl. intros H. apply andb_true_iff in H as [-> H]. auto.
Qed.

Lemma takeDigits_app ds rest :
  allDigits ds = true -> takeDigits rest = (EmptyString, rest) ->
  takeDigits (ds +:+ rest) = (ds, rest).
Proof.
  intros Hd Hr. induction ds as [|c ds IH]; [exact Hr|].
  rewrite append_cons. simpl.
  simpl in Hd. apply andb_true_iff in Hd as [-> Hd]. rewrite (IH Hd). reflexivity.
Qed.

Lemma takeDigits_stop s : startsWithDigit s = false -> takeDigits s = (EmptyString, s).
Proof.
  destruct s as [|c t]; simpl; [reflexivity|]. intros ->. reflexivity.
Qed.

Lemma startsWithDigit_app ds s :
  allDigits ds = true -> isEmpty ds = false -> startsWithDigit (ds +:+ s) = true.
Proof.
  destruct ds as [|c ds]; [discriminate|]. rewrite append_cons. simpl.
  intros H _. apply andb_true_iff in H as [H _]. exact H.
Qed.

Lemma takeSign_digit s : startsWithDigit s = true -> takeSign s = (false, s).
Proof.
  destruct s as [|c t]; [discriminate|]. simpl. intros H.
  destruct (digit_facts c H) as (_ & -> & -> & _). reflexivity.
Qed.

Lemma takeSign_signText sg s :
  startsWithDigit s = true -> takeSign (signText sg +:+ s) = (isMinus sg, s).
Proof.
  intros H. destruct sg; [apply takeSign_digit, H|reflexivity|reflexivity].
Qed.

(** The exponent part of a literal is read in full, and a tail that starts
    with none is left alone. *)
Lemma scanExponent_part x tail :
  match x with
  | Some x => allDigits (exponentDigits x) && negb (isEmpty (exponentDigits x))
  | None => negb (startsExponent tail)
  end = true ->
  startsWithDigit tail = false ->
  scanExponent (exponentThen x tail) = (exponentValue x, tail).
Proof.
  intros Hx Ht. destruct x as [[cap sg ds]|]; cbn [exponentThen exponentValue
    capital exponentSign exponentDigits] in *.
  - apply andb_true_iff in Hx as [Hd Hne]. apply negb_true_iff in Hne.
    assert (E : scanExponent (String (if cap then "E" else "e")%char
                                (signText sg +:+ ds +:+ tail)) =
                ((if isMinus sg then - Z.of_N (digitsValue 0 ds)
                  else Z.of_N (digitsValue 0 ds)), tail)).
    { unfold scanExponent.
      replace (Ascii.eqb (if cap then "E" else "e")%char "e" ||
               Ascii.eqb (if cap then "E" else "e")%char "E") with true
        by (destruct cap; reflexivity).
      rewrite (takeSign_signText sg _ (startsWithDigit_app ds tail Hd Hne)).
      rewrite (takeDigits_app ds tail Hd (takeDigits_stop _ Ht)), Hne. reflexivity. }
    destruct cap; exact E.
  - apply negb_true_iff in Hx. destruct tail as [|c t]; [reflexivity|].
    unfold scanExponent. unfold startsExponent in Hx.
    destruct (Ascii.eqb c "e" || Ascii.eqb c "E"); [|reflexivity].
    cbn [andb] in Hx. destruct (takeSign t) as [neg s2]. cbn [snd] in Hx.
    rewrite (takeDigits_stop _ Hx). reflexivity.
Qed.

Lemma exponentThen_stop x tail :
  startsWithDigit tail = false ->
  startsWithDigit (exponentThen x tail) = false.
Proof.
  intros Ht. destruct x as [[[] sg ds]|]; [reflexivity|reflexivity|exact Ht].
Qed.

Lemma scanUnsigned_decimal d tail :
  wellFormed (LDecimal d) = true -> continues (LDecimal d) tail = false ->
  exists rest,
    scanUnsigned (literalThen (LDecimal d) tail) =
    Some (digitsValue 0 (integerDigits d +:+ fractionDigits d),
          exponentValue (exponent d) - Z.of_nat (String.length (fractionDigits d)), rest).
Proof.
  destruct d as [ip pt fp ex].
  cbn [wellFormed continues literalThen integerDigits point fractionDigits exponent].
  intros Hw Hc.
  apply andb_true_iff in Hw as [Hw Hx]. apply andb_true_iff in Hw as [Hw Hp].
  apply andb_true_iff in Hw as [Hw Hne]. apply andb_true_iff in Hw as [Hi Hf].
  apply negb_true_iff in Hne.
  apply orb_false_iff in Hc as [Ht Hc].
  assert (He : scanExponent (exponentThen ex tail) = (exponentValue ex, tail)).
  { apply scanExponent_part; [|exact Ht]. destruct ex as [x|]; [exact Hx|].
    apply orb_false_iff in Hc as [-> _]. reflexivity. }
  pose proof (exponentThen_stop ex tail Ht) as Hr.
  unfold scanUnsigned. destruct pt.
  - exists tail.
    rewrite (takeDigits_app ip ("." +:+ fp +:+ exponentThen ex tail) Hi eq_refl).
    change ("." +:+ fp +:+ exponentThen ex tail)
      with (String "." (fp +:+ exponentThen ex tail)).
    cbn iota. rewrite Ascii.eqb_refl.
    rewrite (takeDigits_app fp _ Hf (takeDigits_stop _ Hr)), Hne, He. reflexivity.
  - cbn [orb] in Hp. destruct fp as [|c fp]; [|discriminate].
    rewrite (takeDigits_app ip _ Hi (takeDigits_stop _ Hr)).
    assert (Stay : match exponentThen ex tail with
                   | String c t =>
                       if Ascii.eqb c "." then takeDigits t
                       else (EmptyString, exponentThen ex tail)
                   | EmptyString => (EmptyString, exponentThen ex tail)
                   end = (EmptyString, exponentThen ex tail) ->
                   exists rest,
                     (let '(fp, s2) :=
                        match exponentThen ex tail with
                        | String c t =>
                            if Ascii.eqb c "." then takeDigits t
                            else (EmptyString, exponentThen ex tail)
                        | EmptyString => (EmptyString, exponentThen ex tail)
                        end in
                      if isEmpty ip && isEmpty fp then None
                      else
                        let '(ex, rest) := scanExponent s2 in
                        Some (digitsValue 0 (ip +:+ fp),
                              ex - Z.of_nat (String.length fp), rest)) =
                     Some (digitsValue 0 (ip +:+ ""),
                           exponentValue ex - Z.of_nat (String.length ""), rest)).
    { intros E. exists tail. rewrite E, Hne, He. reflexivity. }
    destruct ex as [[[] sg ds]|]; [apply Stay; reflexivity..|].
    cbn [exponentThen] in *. apply orb_false_iff in Hc as [Hse Hc]. cbn [negb andb] in Hc.
    destruct tail as [|c t]; [apply Stay; reflexivity|].
    destruct (Ascii.eqb c ".") eqn:Ec; [|apply Stay; reflexivity].
    clear Stay. cbn [andb] in Hc. apply orb_false_iff in Hc as [Hd Hx'].
    exists t. cbn iota. rewrite (takeDigits_stop t Hd), Hne.
    pose proof (scanExponent_part None t ltac:(cbn; rewrite Hx'; reflexivity) Hd) as Et.
    cbn [exponentThen exponentValue] in Et. rewrite Et. reflexivity.
Qed.

(** The first character of a literal is a digit, a point or [I]. *)
Lemma literalThen_first l tail :
  wellFormed l = true ->
  exists c r, literalThen l tail = String c r /\
    (isDigit c = true \/ c = "."%char \/ c = "I"%char).
Proof.
  destruct l as [|[ip pt fp ex]].
  - intros _. exists "I"%char, ("nfinity" +:+ tail). auto.
  - cbn [wellFormed literalThen integerDigits point fractionDigits exponent].
    intros Hw.
    apply andb_true_iff in Hw as [Hw _]. apply andb_true_iff in Hw as [Hw Hp].
    apply andb_true_iff in Hw as [Hw Hne]. apply andb_true_iff in Hw as [Hi Hf].
    destruct ip as [|c ip].
    + destruct pt; [|destruct fp; discriminate].
      exists "."%char, (fp +:+ exponentThen ex tail). auto.
    + rewrite append_cons. simpl in Hi. apply andb_true_iff in Hi as [Hc _]. eauto.
Qed.

Lemma first_facts c :
  isDigit c = true \/ c = "."%char \/ c = "I"%char ->
  isWhiteSpace c = false /\ Ascii.eqb c "+" = false /\ Ascii.eqb c "-" = false.
Proof.
  intros [H|[->| ->]]; [|repeat split; reflexivity..].
  destruct (digit_facts c H) as (W & P & M & _). auto.
Qed.

Lemma decimal_first d tail c r :
  wellFormed (LDecimal d) = true -> literalThen (LDecimal d) tail = String c r ->
  Ascii.eqb c "I" = false.
Proof.
  destruct d as [ip pt fp ex].
  cbn [wellFormed literalThen integerDigits point fractionDigits exponent].
  intros Hw.
  apply andb_true_iff in Hw as [Hw _]. apply andb_true_iff in Hw as [Hw Hp].
  apply andb_true_iff in Hw as [Hw Hne]. apply andb_true_iff in Hw as [Hi Hf].
  destruct ip as [|a ip].
  - destruct pt; [|destruct fp; discriminate].
    change ("" +:+ "." +:+ fp +:+ exponentThen ex tail)
      with (String "." (fp +:+ exponentThen ex tail)).
    intros [= <- _]. reflexivity.
  - rewrite append_cons. intros [= <- _].
    simpl in Hi. apply andb_true_iff in Hi as [Hc _]. apply (digit_facts a Hc).
Qed.

Lemma takeSign_literal ws sg l tail :
  allWhite ws = true -> wellFormed l = true ->
  takeSign (trimStart (ws +:+ signText sg +:+ literalThen l tail)) =
  (isMinus sg, literalThen l tail).
Proof.
  intros Hw Hl. rewrite (trimStart_white _ _ Hw).
  destruct (literalThen_first l tail Hl) as (c & r & -> & Hc).
  destruct (first_facts c Hc) as (W & P & M).
  destruct sg; cbn [signText isMinus].
  - change ("" +:+ String c r) with (String c r). cbn [trimStart]. rewrite W.
    cbn [takeSign]. rewrite P, M. reflexivity.
  - reflexivity.
  - reflexivity.
Qed.

Lemma of_decimal_sign neg m e : hasSign neg (of_decimal neg m e) = true.
Proof.
  unfold of_decimal. destruct m as [|p]; [apply eqb_reflx|].
  destruct (Z.leb_spec 0 e) as [He|He].
  - unfold binary_round. destruct (shl_align _ _ _) as [mz ez].
    apply binary_round_aux_sign. lia.
  - unfold SFdiv_core_binary.
    set (m' := match _ - _ with Z0 => Z.pos p | Z.pos _ => _ | Z.neg _ => 0 end).
    assert (Hm : 0 <= m').
    { subst m'. destruct (_ - _); [lia| |lia]. apply Z.shiftl_nonneg. lia. }
    assert (Hd : 0 < 10 ^ (- e)) by (apply Z.pow_pos_nonneg; lia).
    pose proof (Z.div_pos m' (10 ^ (- e)) Hm Hd) as Hq.
    unfold Z.div in Hq. destruct (Z.div_eucl m' (10 ^ (- e))) as [q r]. simpl in Hq.
    apply binary_round_aux_sign, Hq.
Qed.

Lemma hasSign_isNaN neg x : hasSign neg x = true -> isNaN x = false.
Proof. destruct x; simpl; congruence. Qed.

Lemma Math_max_zero_negative x : hasSign true x = true -> Math_max zero x = zero.
Proof. destruct x as [[]|[]| |[] m e]; simpl; try discriminate; reflexivity. Qed.

Lemma Math_max_zero_positive x : hasSign false x = true -> Math_max zero x = x.
Proof. destruct x as [[]|[]| |[] m e]; simpl; try discriminate; reflexivity. Qed.

Lemma parseFloat_literal ws sg l tail :
  allWhite ws = true -> wellFormed l = true -> continues l tail = false ->
  parseFloat (ws +:+ signText sg +:+ literalThen l tail) = literalValue (isMinus sg) l.
Proof.
  intros Hw Hl Hc. unfold parseFloat. rewrite (takeSign_literal ws sg l tail Hw Hl).
  destruct l as [|d].
  - replace (String_startsWith (literalThen LInfinity tail) "Infinity") with true
      by (destruct tail; reflexivity).
    reflexivity.
  - destruct (scanUnsigned_decimal d tail Hl Hc) as [rest ->].
    destruct (literalThen_first (LDecimal d) tail Hl) as (c & r & H & _).
    rewrite H.
    simpl. rewrite (decimal_first d tail c r Hl H). reflexivity.
Qed.

(** A text that [parseFloat] reads as a number starts, white space and sign
    apart, with a literal. *)
Lemma trimStart_split s : exists ws, allWhite ws = true /\ s = ws +:+ trimStart s.
Proof.
  induction s as [|a s (ws & Hw & E)]; [exists ""; split; reflexivity|].
  simpl. destruct (isWhiteSpace a) eqn:Ea.
  - exists (String a ws). split.
    + simpl. rewrite Ea, Hw. reflexivity.
    + rewrite append_cons. f_equal. exact E.
  - exists "". split; reflexivity.
Qed.

Lemma takeSign_split u :
  exists sg, u = signText sg +:+ snd (takeSign u) /\ fst (takeSign u) = isMinus sg.
Proof.
  destruct u as [|c t]; [exists NoSign; split; reflexivity|]. simpl.
  destruct (Ascii.eqb_spec c "+") as [->|_]; [exists PlusSign; split; reflexivity|].
  destruct (Ascii.eqb_spec c "-") as [->|_]; [exists MinusSign; split; reflexivity|].
  exists NoSign; split; reflexivity.
Qed.

Lemma startsWith_app p : forall s,
  String_startsWith s p = true -> exists r, s = p +:+ r.
Proof.
  induction p as [|x p IH]; intros s H; [exists s; reflexivity|].
  destruct s as [|a s]; [discriminate|]. simpl in H.
  apply andb_true_iff in H as [Ha H]. apply Ascii.eqb_eq in Ha as ->.
  destruct (IH s H) as (r & ->). exists r. reflexivity.
Qed.

Lemma takeDigits_first s c ds r :
  takeDigits s = (String c ds, r) -> exists t, s = String c t /\ isDigit c = true.
Proof.
  destruct s as [|a s]; [discriminate|]. simpl.
  destruct (isDigit a) eqn:E; [|discriminate].
  destruct (takeDigits s) as [ds' r']. intros [= <- _ _]. eauto.
Qed.

Lemma takeDigits_none s r : takeDigits s = (EmptyString, r) -> r = s.
Proof.
  destruct s as [|a s]; simpl; [congruence|].
  destruct (isDigit a); [|congruence].
  destruct (takeDigits s); discriminate.
Qed.

Lemma scanUnsigned_first v x :
  scanUnsigned v = Some x ->
  exists l tail, wellFormed l = true /\ v = literalThen l tail.
Proof.
  unfold scanUnsigned. destruct (takeDigits v) as [ip s1] eqn:E1.
  destruct ip as [|c ip].
  - apply takeDigits_none in E1. subst s1.
    destruct v as [|a t]; [discriminate|].
    destruct (Ascii.eqb_spec a ".") as [->|_]; [|discriminate].
    destruct (takeDigits t) as [fp s2] eqn:E2.
    destruct fp as [|d fp]; [discriminate|]. intros _.
    destruct (takeDigits_first _ _ _ _ E2) as (r & -> & Hd).
    exists (LDecimal {| integerDigits := ""; point := true;
                        fractionDigits := String d ""; exponent := None |}), r.
    split; [|reflexivity]. simpl. rewrite Hd. reflexivity.
  - intros _. destruct (takeDigits_first _ _ _ _ E1) as (r & -> & Hc).
    exists (LDecimal {| integerDigits := String c ""; point := false;
                        fractionDigits := ""; exponent := None |}), r.
    split; [|reflexivity]. simpl. rewrite Hc. reflexivity.
Qed.

Lemma parseFloat_prefix t :
  isNaN (parseFloat t) = false ->
  exists ws sg l tail,
    allWhite ws = true /\ wellFormed l = true /\
    t = ws +:+ signText sg +:+ literalThen l tail.
Proof.
  unfold parseFloat. intros H.
  destruct (trimStart_split t) as (ws & Hw & Et).
  destruct (takeSign_split (trimStart t)) as (sg & Eu & _).
  destruct (takeSign (trimStart t)) as [neg u]. cbn [snd] in Eu.
  assert (L : exists l tail, wellFormed l = true /\ u = literalThen l tail).
  { destruct (String_startsWith u "Infinity") eqn:I.
    - destruct (startsWith_app _ _ I) as (r & ->). exists LInfinity, r. auto.
    - destruct (scanUnsigned u) as [x|] eqn:S; [|discriminate].
      exact (scanUnsigned_first u x S). }
  destruct L as (l & tail & Hl & ->).
  exists ws, sg, l, tail. repeat split; [exact Hw|exact Hl|].
  rewrite Et at 1. rewrite Eu. reflexivity.
Qed.

(** C10, as stated, fails: the leading number of "-0.5 per token" is -0.5
    and [parsePrice] returns 0; and "0", which is all numeric prefix, yields 0
    as well. *)
Lemma negative_prefix_clamped :
  parseFloat "-0.5 per token" = lit "-0.5" /\
  parsePrice (PriceString "-0.5 per token") = zero /\
  lit "-0.5" <> zero /\
  isNaN (parseFloat "0") = false /\
  parsePrice (PriceString "0") = zero.
Proof. vm_compute. repeat split; discriminate. Qed.

(** C10, amended: for every string whose leading characters, after optional
    white space, form a valid number (an optional sign and then [Infinity],
    or digits with an optional point, fraction and exponent part, or a point
    with a fraction and an optional exponent part) followed by trailing text
    that does not continue it (for example "0.5 per token"), [parseFloat]
    reads that leading number, and [parsePrice] returns it when it has no
    minus sign and 0 when it has one; a string with no numeric prefix yields
    0. *)
Theorem parsePrice_numeric_prefix :
  (forall (ws : string) (sg : signMark) (l : literal) (tail : string),
     allWhite ws = true -> wellFormed l = true -> continues l tail = false ->
     let s := ws +:+ signText sg +:+ literalThen l tail in
     parseFloat s = literalValue (isMinus sg) l /\
     parsePrice (PriceString s) = (if isMinus sg then zero else literalValue false l)) /\
  (forall t : string,
     (forall ws sg l tail, allWhite ws = true -> wellFormed l = true ->
        t <> ws +:+ signText sg +:+ literalThen l tail) ->
     isNaN (parseFloat t) = true /\ parsePrice (PriceString t) = zero).
Proof.
  split.
  - intros ws sg l tail Hw Hl Hc s.
    pose proof (parseFloat_literal ws sg l tail Hw Hl Hc) as Hp. fold s in Hp.
    split; [exact Hp|].
    unfold parsePrice. cbn [priceText]. rewrite Hp.
    assert (Hs : forall neg, hasSign neg (literalValue neg l) = true).
    { intros neg. destruct l as [|d]; [apply eqb_reflx|apply of_decimal_sign]. }
    rewrite (hasSign_isNaN _ _ (Hs (isMinus sg))).
    destruct (isMinus sg).
    + apply Math_max_zero_negative, Hs.
    + apply Math_max_zero_positive, Hs.
  - intros t H.
    assert (N : isNaN (parseFloat t) = true).
    { destruct (isNaN (parseFloat t)) eqn:E; [reflexivity|].
      destruct (parseFloat_prefix t E) as (ws & sg & l & tail & Hw & Hl & Et).
      destruct (H ws sg l tail Hw Hl Et). }
    split; [exact N|]. unfold parsePrice. cbn [priceText]. rewrite N. reflexivity.
Qed.

Lemma parsePrice_numeric_prefix_witness :
  parsePrice (PriceString "0.5 per token") = lit "0.5" /\
  parsePrice (PriceString "1e-7") = lit "1e-7" /\
  parsePrice (PriceString "+0.5") = lit "0.5" /\
  parsePrice (PriceString ".5") = lit "0.5" /\
  parsePrice (PriceString "Infinity") = Infinity /\
  parsePrice (PriceString "5each") = int 5 /\
  parsePrice (PriceString "5.each") = int 5 /\
  parsePrice (PriceString " -3 units") = zero.
Proof.
  pose proof (fun ws sg l tail w f c =>
                proj2 (proj1 parsePrice_numeric_prefix ws sg l tail w f c)) as H.
  split; [|split; [|split; [|split; [|split; [|split; [|split]]]]]].
  - exact (H "" NoSign
             (LDecimal {| integerDigits := "0"; point := true;
                          fractionDigits := "5"; exponent := None |})
             " per token" eq_refl eq_refl eq_refl).
  - exact (H "" NoSign
             (LDecimal {| integerDigits := "1"; point := false; fractionDigits := "";
                          exponent := Some {| capital := false;
                                              exponentSign := MinusSign;
                                              exponentDigits := "7" |} |})
             "" eq_refl eq_refl eq_refl).
  - exact (H "" PlusSign
             (LDecimal {| integerDigits := "0"; point := true;
                          fractionDigits := "5"; exponent := None |})
             "" eq_refl eq_refl eq_refl).
  - exact (H "" NoSign
             (LDecimal {| integerDigits := ""; point := true;
                          fractionDigits := "5"; exponent := None |})
             "" eq_refl eq_refl eq_refl).
  - exact (H "" NoSign LInfinity "" eq_refl eq_refl eq_refl).
  - exact (H "" NoSign
             (LDecimal {| integerDigits := "5"; point := false;
                          fractionDigits := ""; exponent := None |})
             "each" eq_refl eq_refl eq_refl).
  - exact (H "" NoSign
             (LDecimal {| integerDigits := "5"; point := false;
                          fractionDigits := ""; exponent := None |})
             ".each" eq_refl eq_refl eq_refl).
  - exact (H " " MinusSign
             (LDecimal {| integerDigits := "3"; point := false;
                          fractionDigits := ""; exponent := None |})
             " units" eq_refl eq_refl eq_refl).
Defined.

(** ** C2, C3: the chart view *)

Lemma firstn_Forall {A} (P : A -> Prop) n : forall l, Forall P l -> Forall P (firstn n l).
Proof.
  induction n as [|n IH]; intros l H; [constructor|].
  destruct H; simpl; constructor; auto.
Qed.

Lemma filter_Forall {A} (f : A -> bool) l : Forall (fun x => f x = true) (List.filter f l).
Proof.
  induction l as [|x l IH]; simpl; [constructor|].
  destruct (f x) eqn:E; [constructor|]; auto.
Qed.

(** C2, as stated, fails: with no selection and the default sort (total cost,
    ascending) the chart shows the cost 1 before the cost 2: its records are
    not in descending order of total cost. *)
Lemma chart_default_not_descending :
  let costs := allCosts [priced "a/one" "A" (int 1) zero; priced "b/two" "B" (int 2) zero]
                        (int 1000000) zero in
  map totalCost (chartView costs "All" "" ByTotalCost asc ∅) = [int 1; int 2] /\
  lt (int 1) (int 2) = true.
Proof. split; vm_compute; reflexivity. Qed.

(** C2, amended: when the selection set is empty, the chart view is made of
    the first 15 cost-positive entries of the table view, in the order of the
    table (which is by descending total cost only when the table is sorted
    so); hence it has at most 15 records and each has [totalCost > 0]. *)
Theorem chart_default_mode (costs : list CostCalculation) (selectedProvider search : string)
    (sortField : SortField) (sortOrder : SortOrder) :
  let table := tableData costs selectedProvider search sortField sortOrder ∅ in
  let view := chartView costs selectedProvider search sortField sortOrder ∅ in
  view = firstn 15 (List.filter (fun d => gt (totalCost d) zero) table) /\
  (length view <= 15)%nat /\
  Forall (fun d => gt (totalCost d) zero = true) view.
Proof.
  intros table view.
  assert (E : view = firstn 15 (List.filter (fun d => gt (totalCost d) zero) table))
    by reflexivity.
  split; [exact E|]. rewrite E. split.
  - apply firstn_le_length.
  - apply firstn_Forall, filter_Forall.
Qed.

(** C3: when the selection set is not empty, the chart view is exactly the
    records of the full cost-annotated set whose model id is selected, in
    their order there, whatever the provider filter, the search, the sort
    and the costs are, and however many there are; the chart draws one point
    for each. *)
Theorem chart_selection_mode (costs : list CostCalculation) (selectedProvider search : string)
    (sortField : SortField) (sortOrder : SortOrder) (selectedModelIds : gset string) :
  selectedModelIds <> ∅ ->
  let view := chartView costs selectedProvider search sortField sortOrder selectedModelIds in
  view = List.filter (selected selectedModelIds) costs /\
  (forall d, In d view <->
             In d costs /\ UnifiedModelData.id (model d) ∈ selectedModelIds) /\
  (forall rate,
     CostChart (chartData costs selectedProvider search sortField sortOrder selectedModelIds)
               rate (isSelectionMode selectedModelIds) =
     map (chartPoint rate) (List.filter (selected selectedModelIds) costs)).
Proof.
  intros Hne view.
  assert (Hs : (0 <? size selectedModelIds)%nat = true).
  { apply Nat.ltb_lt. destruct (size selectedModelIds) eqn:E; [|lia].
    apply size_empty_iff in E. apply leibniz_equiv in E. contradiction. }
  assert (E : view = List.filter (selected selectedModelIds) costs).
  { unfold view, chartView, chartData, isSelectionMode, chartRows. rewrite Hs. reflexivity. }
  split; [exact E|]. split.
  - intros d. rewrite E, filter_In. unfold selected, has.
    rewrite bool_decide_eq_true. reflexivity.
  - intros rate. unfold CostChart. fold (chartView costs selectedProvider search sortField
                                          sortOrder selectedModelIds).
    fold view. rewrite E. reflexivity.
Qed.

Lemma chart_selection_mode_witness :
  let costs := allCosts [priced "openai/gpt-4" "OpenAI" (int 30) (int 60);
                         priced "anthropic/claude-3" "Anthropic" zero zero]
                        (int 20000) (int 100000) in
  ({["anthropic/claude-3"]} : gset string) <> ∅ /\
  map (fun d => UnifiedModelData.id (model d))
      (chartView costs "OpenAI" "gpt" ByTotalCost asc {["anthropic/claude-3"]}) =
  ["anthropic/claude-3"].
Proof.
  intros costs.
  assert (Hne : ({["anthropic/claude-3"]} : gset string) <> ∅)
    by apply non_empty_singleton_L.
  split; [exact Hne|].
  rewrite (proj1 (chart_selection_mode costs "OpenAI" "gpt" ByTotalCost asc
                    {["anthropic/claude-3"]} Hne)).
  vm_compute. reflexivity.
Defined.

(** ** C1, C5: the cache gateway *)

Lemma staleFallback_usable w e :
  staleFallback w e =
  match usable (cached w) with Some models => Return models | None => Throw e end.
Proof.
  unfold staleFallback, usable. destruct (cached w) as [[s|v]|]; simpl.
  - destruct (isEmpty s); reflexivity.
  - destruct (getMember v "models"); reflexivity.
  - reflexivity.
Qed.

(** A fresh cache is a usable one, and what is returned is its [models]. *)
Lemma checkCache_fresh w models st :
  checkCache w = (Some models, st) -> usable (cached w) = Some models /\ st = cached w.
Proof.
  unfold checkCache, usable. destruct (cached w) as [[s|v]|]; simpl.
  - destruct (isEmpty s); simpl; discriminate.
  - destruct (getMember v "timestamp") as [ts|]; [|discriminate].
    destruct (ToNumber ts) as [t|]; [|discriminate].
    destruct (lt _ _); [|discriminate]. intros [= H <-]. auto.
  - discriminate.
Qed.

Lemma getMember_defined v key :
  v <> VNull -> v <> VUndefined -> exists x, getMember v key = Some x.
Proof. destruct v; simpl; intros; try congruence; eauto. Qed.

(** C1, as stated, fails: the stored text "null" is parseable JSON, yet when
    the network is unreachable the call throws. *)
Lemma null_cache_not_served :
  let w := {| cached := Some (Json VNull); now := int 0; net := Unreachable;
              later := int 0 |} in
  JSON_parse (Json VNull) = Some VNull /\
  settled (fetchModels w) = Throw FetchError.
Proof. split; reflexivity. Qed.

(** C1, amended: [fetchModels] fails if and only if the remote fetch fails
    and there is no cache text that parses to a value other than [null].
    When the fetch or the validation of the response fails with [e]: if a
    cache text exists and parses (fresh or expired) to a value other than
    [null], the call returns the [models] member of that value and does not
    throw; if there is no text, or it does not parse, or it parses to
    [null], the call throws [e]. *)
Theorem fetchModels_fails_iff (w : world) :
  ((exists e, settled (fetchModels w) = Throw e) <->
   (exists e, fetchFresh (net w) = Throw e) /\ usable (cached w) = None) /\
  (forall e t v,
     fetchFresh (net w) = Throw e ->
     cached w = Some t -> JSON_parse t = Some v -> v <> VNull -> v <> VUndefined ->
     exists models,
       getMember v "models" = Some models /\
       settled (fetchModels w) = Return models) /\
  (forall e,
     fetchFresh (net w) = Throw e ->
     cached w = None \/
     (exists t, cached w = Some t /\
                (JSON_parse t = None \/ JSON_parse t = Some VNull)) ->
     settled (fetchModels w) = Throw e).
Proof.
  assert (Hfail : forall e, fetchFresh (net w) = Throw e ->
            settled (fetchModels w) =
            match usable (cached w) with Some models => Return models | None => Throw e end).
  { intros e He. unfold fetchModels.
    destruct (checkCache w) as [[models|] st] eqn:Hc.
    - apply checkCache_fresh in Hc as [-> _]. reflexivity.
    - rewrite He. simpl. apply staleFallback_usable. }
  split; [|split].
  - split.
    + intros [e He]. unfold fetchModels in He.
      destruct (checkCache w) as [[models|] st] eqn:Hc; [discriminate|].
      destruct (fetchFresh (net w)) as [l|e'] eqn:Hf; [discriminate|].
      simpl in He. rewrite staleFallback_usable in He.
      split; [eauto|]. destruct (usable (cached w)); [discriminate|reflexivity].
    + intros [[e He] Hu]. exists e. rewrite (Hfail e He), Hu. reflexivity.
  - intros e t v He Ht Hp Hn Hd.
    destruct (getMember_defined v "models" Hn Hd) as [models Hm].
    exists models. split; [exact Hm|].
    rewrite (Hfail e He). unfold usable. rewrite Ht, Hp, Hm. reflexivity.
  - intros e He H. rewrite (Hfail e He).
    destruct H as [->|(t & -> & [Hp|Hp])]; simpl; rewrite ?Hp; reflexivity.
Qed.

Lemma fetchModels_fails_iff_witness :
  let stale := VObject [("timestamp", VNumber (int 0));
                        ("models", VArray [modelValue (priced "a/one" "A" (int 1) zero)])] in
  let w := {| cached := Some (Json stale); now := int 86400000;
              net := Response false "Service Unavailable" Unparsable;
              later := int 86400000 |} in
  fetchFresh (net w) = Throw (Error "Failed to fetch models: Service Unavailable") /\
  settled (fetchModels w) = Return (VArray [modelValue (priced "a/one" "A" (int 1) zero)]).
Proof.
  intros stale w. split; [reflexivity|].
  destruct (proj1 (proj2 (fetchModels_fails_iff w))
              (Error "Failed to fetch models: Service Unavailable") (Json stale) stale
              eq_refl eq_refl eq_refl
              ltac:(discriminate) ltac:(discriminate)) as (models & Hm & Hs).
  injection Hm as <-. exact Hs.
Defined.

Lemma plainNumber_image x : plainNumber x = true -> JSON_image (VNumber x) = VNumber x.
Proof. destruct x as [[]|[]| |[] m e]; simpl; try discriminate; reflexivity. Qed.

Lemma plainNumber_signed x :
  hasSign false x = true -> isFinite x = true -> plainNumber x = true.
Proof. destruct x as [[]|[]| |[] m e]; simpl; try discriminate; reflexivity. Qed.

Lemma orZero_plain c : isFinite (orZero c) = true -> plainNumber (orZero c) = true.
Proof. destruct c as [[[]|[]| |[] m e]|]; simpl; try discriminate; reflexivity. Qed.

Lemma modelValue_image m :
  plainNumber (UnifiedModelData.inputPricePerMillion m) = true ->
  plainNumber (UnifiedModelData.outputPricePerMillion m) = true ->
  plainNumber (UnifiedModelData.contextWindow m) = true ->
  JSON_image (modelValue m) = modelValue m.
Proof.
  destruct m as [i n p a b c]. unfold modelValue. cbn [UnifiedModelData.id
    UnifiedModelData.name UnifiedModelData.provider UnifiedModelData.inputPricePerMillion
    UnifiedModelData.outputPricePerMillion UnifiedModelData.contextWindow].
  intros Ha Hb Hc.
  destruct a as [[]|[]| |[] ma ea]; try discriminate;
  destruct b as [[]|[]| |[] mb eb]; try discriminate;
  destruct c as [[]|[]| |[] mc ec]; try discriminate; reflexivity.
Qed.

(** What is read back from the cache is what was written as long as every
    number of every normalized model is finite. *)
Lemma normalized_image rawModels :
  Forall (fun m => finiteNumbers m = true) (map normalize rawModels) ->
  JSON_image (modelsValue (map normalize rawModels)) =
  modelsValue (map normalize rawModels).
Proof.
  intros H. unfold modelsValue. cbn [JSON_image]. f_equal.
  induction rawModels as [|r l IH]; [reflexivity|].
  inversion H as [|? ? Hr Hl]; subst.
  cbn [map]. rewrite (IH Hl). f_equal.
  unfold finiteNumbers in Hr. apply andb_true_iff in Hr as [Hr Hc].
  apply andb_true_iff in Hr as [Hi Ho].
  rewrite modelValue_image; [reflexivity| | |].
  - apply plainNumber_signed; [apply mul_million_sign, parsePrice_sign|exact Hi].
  - apply plainNumber_signed; [apply mul_million_sign, parsePrice_sign|exact Ho].
  - apply orZero_plain, Hc.
Qed.

Lemma age_of_stored_timestamp n t d :
  isFinite t = true ->
  exists t', ToNumber (JSON_image (VNumber t)) = Some t' /\
             lt (sub n t') d = lt (sub n t) d.
Proof.
  destruct t as [[]|[]| |[] m e]; try discriminate; intros _;
    (eexists; split; [reflexivity|]); try reflexivity.
  simpl. destruct n as [[]|[]| |[] m e]; reflexivity.
Qed.

(** C5, as stated, fails: a catalog price of "1e400" is normalized to
    [Infinity] and written to the cache as [null]; the call made a second
    later, within the hour and without a fetch, returns another model
    sequence than the one that was written. *)
Lemma cache_round_trip_not_identical :
  let w1 := {| cached := None; now := int 1000;
               net := Response true "OK" (Data [overpriced]); later := int 1000 |} in
  let w2 := {| cached := storage (fetchModels w1); now := int 2000;
               net := Unreachable; later := int 2000 |} in
  lt (sub (now w2) (later w1)) CACHE_DURATION = true /\
  fetched (fetchModels w2) = false /\
  settled (fetchModels w2) <> settled (fetchModels w1).
Proof. vm_compute. repeat split; discriminate. Qed.

(** C5, amended: if a cache entry was written by a successful fetch and
    [fetchModels] is called again while the age of the entry is strictly less
    than one hour, the call performs no network fetch, leaves the cache as it
    is, and returns the model sequence as [JSON.parse] reads it back; this
    is identical to the sequence that was written whenever all its prices and
    context windows are finite (a number that is not finite comes back as
    [null]). *)
Theorem cache_round_trip (w1 w2 : world) (statusText : string)
    (rawModels : list OpenRouterModel.t) :
  net w1 = Response true statusText (Data rawModels) ->
  fetched (fetchModels w1) = true ->
  cached w2 = storage (fetchModels w1) ->
  isFinite (later w1) = true ->
  lt (sub (now w2) (later w1)) CACHE_DURATION = true ->
  let models := map normalize rawModels in
  settled (fetchModels w1) = Return (modelsValue models) /\
  settled (fetchModels w2) = Return (JSON_image (modelsValue models)) /\
  fetched (fetchModels w2) = false /\
  storage (fetchModels w2) = cached w2 /\
  (Forall (fun m => finiteNumbers m = true) models ->
   settled (fetchModels w2) = settled (fetchModels w1)).
Proof.
  intros Hnet Hfetched Hcached Hfin Hage models.
  assert (H1 : fetchModels w1 =
               {| settled := Return (modelsValue models);
                  storage := Some (JSON_stringify
                    (VObject [("timestamp", VNumber (later w1));
                              ("models", modelsValue models)]));
                  fetched := true |}).
  { unfold fetchModels in *. destruct (checkCache w1) as [[m|] st]; [discriminate|].
    rewrite Hnet. reflexivity. }
  rewrite H1 in Hcached. cbn [storage] in Hcached.
  assert (Hst : JSON_stringify (VObject [("timestamp", VNumber (later w1));
                                         ("models", modelsValue models)]) =
                Json (VObject [("timestamp", JSON_image (VNumber (later w1)));
                               ("models", JSON_image (modelsValue models))])).
  { unfold JSON_stringify, modelsValue.
    destruct (later w1) as [[]|[]| |[] m e]; try discriminate; reflexivity. }
  rewrite Hst in Hcached.
  assert (H2 : fetchModels w2 =
               {| settled := Return (JSON_image (modelsValue models));
                  storage := cached w2;
                  fetched := false |}).
  { unfold fetchModels, checkCache. rewrite Hcached.
    cbn [truthy JSON_parse getMember lookupField].
    change (String.eqb "timestamp" "timestamp") with true.
    change (String.eqb "timestamp" "models") with false.
    change (String.eqb "models" "models") with true. cbn iota.
    destruct (age_of_stored_timestamp (now w2) _ CACHE_DURATION Hfin) as (t' & -> & Ht').
    rewrite Ht', Hage. reflexivity. }
  rewrite H1, H2. cbn [settled storage fetched].
  repeat split. intros Hall. unfold models. rewrite (normalized_image _ Hall). reflexivity.
Qed.

Lemma cache_round_trip_witness :
  let w1 := {| cached := None; now := int 1000;
               net := Response true "OK" (Data [claude3 "Claude 3" None]);
               later := int 1000 |} in
  let w2 := {| cached := storage (fetchModels w1); now := int 3600999;
               net := Unreachable; later := int 3600999 |} in
  lt (sub (now w2) (later w1)) CACHE_DURATION = true /\
  fetched (fetchModels w2) = false /\
  settled (fetchModels w2) = settled (fetchModels w1).
Proof.
  intros w1 w2.
  assert (Hage : lt (sub (now w2) (later w1)) CACHE_DURATION = true) by reflexivity.
  destruct (cache_round_trip w1 w2 "OK" [claude3 "Claude 3" None]
              eq_refl eq_refl eq_refl eq_refl Hage) as (_ & _ & Hf & _ & Hid).
  split; [exact Hage|]. split; [exact Hf|].
  apply Hid. repeat constructor.
Defined.

(** ** C4: the table sort *)

(** *** A stable insertion sort under a comparator that is consistent on the
    elements that satisfy [ok] *)

Section SortFacts.
Context {A : Type} (cmp : A -> A -> Z) (ok : A -> Prop).
Hypothesis cmp_antisym : forall a b, cmp b a = - cmp a b.
Hypothesis cmp_trans : forall a b c,
  ok a -> ok b -> ok c -> cmp a b <= 0 -> cmp b c <= 0 -> cmp a c <= 0.


Lemma insert_Permutation x l : Permutation (x :: l) (insert cmp x l).
Proof.
  induction l as [|y l IH]; simpl; [reflexivity|].
  destruct (0 <? cmp x y); [|reflexivity].
  rewrite perm_swap. apply perm_skip, IH.
Qed.

Lemma sort_Permutation l : Permutation l (Array_sort cmp l).
Proof.
  induction l as [|x l IH]; simpl; [reflexivity|].
  rewrite <- insert_Permutation. apply perm_skip, IH.
Qed.

Lemma sort_Forall (P : A -> Prop) l : Forall P l -> Forall P (Array_sort cmp l).
Proof. intros H. eapply Permutation_Forall; [apply sort_Permutation|exact H]. Qed.

Lemma insert_sorted x l :
  ok x -> Forall ok l ->
  StronglySorted (fun a b => cmp a b <= 0) l ->
  StronglySorted (fun a b => cmp a b <= 0) (insert cmp x l).
Proof.
  intros Hx Hl Hs. induction Hs as [|y l Hs IH Hy]; simpl.
  - repeat constructor.
  - inversion Hl as [|? ? Hoy Hol]; subst.
    destruct (Z.ltb_spec 0 (cmp x y)) as [Hlt|Hge].
    + constructor; [apply IH, Hol|].
      eapply Permutation_Forall; [apply insert_Permutation|].
      constructor; [|exact Hy]. pose proof (cmp_antisym x y). lia.
    + constructor; [constructor; assumption|].
      constructor; [exact Hge|].
      rewrite Forall_forall in *. intros z Hz. eauto.
Qed.

Lemma sort_sorted l :
  Forall ok l -> StronglySorted (fun a b => cmp a b <= 0) (Array_sort cmp l).
Proof.
  induction 1 as [|x l Hx Hl IH]; simpl; [constructor|].
  apply insert_sorted; auto using sort_Forall.
Qed.


End SortFacts.

(** *** An insertion sort under a comparator that puts the pinned elements
    first, whatever else it does *)

Section PinFacts.
Context {A : Type} (cmp : A -> A -> Z) (pin : A -> bool).
Hypothesis cmp_pinned : forall a b, pin a = true -> pin b = false -> cmp a b < 0.
Hypothesis cmp_unpinned : forall a b, pin a = false -> pin b = true -> 0 < cmp a b.


End PinFacts.



(** *** The order of the keys *)





Lemma String_lt_asym a : forall b, String_lt a b = true -> String_lt b a = false.
Proof.
  induction a as [|x a IH]; intros [|y b]; simpl; try congruence.
  destruct (N.ltb_spec (code x) (code y)), (N.ltb_spec (code y) (code x));
    try lia; auto.
Qed.

Lemma String_lt_between a : forall b c,
  String_lt a c = true -> String_lt a b = true \/ String_lt b c = true.
Proof.
  induction a as [|x a IH]; intros [|y b] [|z c]; simpl; try discriminate; auto.
  destruct (N.ltb_spec (code x) (code z)), (N.ltb_spec (code z) (code x)),
           (N.ltb_spec (code x) (code y)), (N.ltb_spec (code y) (code x)),
           (N.ltb_spec (code y) (code z)), (N.ltb_spec (code z) (code y));
    try lia; try discriminate; auto.
Qed.



(** *** The comparator *)








(** * Further properties of the code *)

Set Warnings "-clear-no-such-hyp".

(** ** App: selection and sort handlers *)

(** Toggling an id twice gives the selection back; one toggle flips the
    membership of that id and of no other, and moves the size by one. *)
Theorem toggle_selection (selectedModelIds : gset string) (id other : string) :
  let next := handleToggleSelection selectedModelIds id in
  handleToggleSelection next id = selectedModelIds /\
  has next other = (if String.eqb other id then negb (has selectedModelIds other)
                    else has selectedModelIds other) /\
  size next = (if has selectedModelIds id then pred (size selectedModelIds)
               else S (size selectedModelIds)) /\
  isSelectionMode (handleToggleSelection clearSelection id) = true.
Proof.
  unfold handleToggleSelection, has, clearSelection, isSelectionMode. cbn zeta.
  repeat split.
  - destruct (bool_decide_reflect (id ∈ selectedModelIds)) as [Hin|Hin].
    + rewrite bool_decide_eq_false_2 by set_solver.
      apply set_eq. intros x. destruct (decide (x = id)); set_solver.
    + rewrite bool_decide_eq_true_2 by set_solver.
      apply set_eq. intros x. destruct (decide (x = id)); set_solver.
  - destruct (String.eqb_spec other id) as [->|Hne].
    + destruct (bool_decide_reflect (id ∈ selectedModelIds)) as [Hin|Hin]; simpl.
      * apply bool_decide_eq_false_2. set_solver.
      * apply bool_decide_eq_true_2. set_solver.
    + destruct (bool_decide_reflect (id ∈ selectedModelIds));
        apply bool_decide_ext; set_solver.
  - destruct (bool_decide_reflect (id ∈ selectedModelIds)) as [Hin|Hin].
    + rewrite size_difference by set_solver. rewrite size_singleton. lia.
    + rewrite size_union by set_solver. rewrite size_singleton. lia.
  - rewrite bool_decide_eq_false_2 by set_solver.
    rewrite size_union by set_solver. rewrite size_empty, size_singleton. reflexivity.
Qed.

(** A click on a header makes its field the sort field; a click on the
    active header reverses the order, so two more clicks change nothing and
    the clicks on one header alternate between two states. *)
Theorem handleSort_cycle (sortField : SortField) (sortOrder : SortOrder) (field : SortField) :
  let once := handleSort sortField sortOrder field in
  let twice := handleSort (fst once) (snd once) field in
  let thrice := handleSort (fst twice) (snd twice) field in
  fst once = field /\ fst twice = field /\
  snd twice <> snd once /\
  thrice = once /\
  handleSort field sortOrder field <> (field, sortOrder) /\
  handleSort (fst (handleSort field sortOrder field))
             (snd (handleSort field sortOrder field)) field = (field, sortOrder).
Proof.
  unfold handleSort. cbn zeta.
  destruct (bool_decide_reflect (sortField = field)) as [->|Hne]; cbn [fst snd];
    rewrite ?bool_decide_eq_true_2 by reflexivity; cbn [fst snd];
    rewrite ?bool_decide_eq_true_2 by reflexivity; cbn [fst snd];
    destruct sortOrder; repeat split; congruence.
Qed.

(** ** App: the provider filter *)

Lemma code_inj x y : code x = code y -> x = y.
Proof.
  unfold code. intros H.
  rewrite <- (ascii_N_embedding x), <- (ascii_N_embedding y), H. reflexivity.
Qed.

Lemma String_lt_total a : forall b,
  String_lt a b = false -> String_lt b a = false -> a = b.
Proof.
  induction a as [|x a IH]; intros [|y b]; simpl; try discriminate; auto.
  destruct (N.ltb_spec (code x) (code y)), (N.ltb_spec (code y) (code x));
    try discriminate; try lia.
  intros H1 H2. f_equal; [apply code_inj; lia|auto].
Qed.

Lemma defaultCompare_le a b : defaultCompare a b <= 0 <-> String_lt b a = false.
Proof.
  unfold defaultCompare. pose proof (String_lt_asym a b) as H.
  destruct (String_lt a b), (String_lt b a); try specialize (H eq_refl);
    try discriminate; split; intros; try lia; congruence.
Qed.

Lemma defaultCompare_antisym a b : defaultCompare b a = - defaultCompare a b.
Proof.
  unfold defaultCompare. pose proof (String_lt_asym a b) as H.
  destruct (String_lt a b), (String_lt b a); try specialize (H eq_refl);
    try discriminate; reflexivity.
Qed.

Lemma defaultCompare_trans a b c :
  True -> True -> True ->
  defaultCompare a b <= 0 -> defaultCompare b c <= 0 -> defaultCompare a c <= 0.
Proof.
  intros _ _ _. rewrite !defaultCompare_le. intros Hab Hbc.
  destruct (String_lt c a) eqn:E; [|reflexivity].
  destruct (String_lt_between c b a E); congruence.
Qed.

Lemma distinct_In x l : In x (distinct l) <-> In x l.
Proof.
  induction l as [|y l IH]; simpl; [tauto|].
  rewrite filter_In, IH, negb_true_iff, String.eqb_neq.
  destruct (string_dec y x); intuition congruence.
Qed.

Lemma distinct_NoDup l : List.NoDup (distinct l).
Proof.
  induction l as [|y l IH]; simpl; constructor.
  - rewrite filter_In, negb_true_iff, String.eqb_neq. tauto.
  - apply List.NoDup_filter, IH.
Qed.

(** A list without repetition in which no element stands before a smaller
    one is strictly increasing. *)
Lemma sorted_strict l :
  StronglySorted (fun a b => defaultCompare a b <= 0) l -> List.NoDup l ->
  StronglySorted (fun a b => String_lt a b = true) l.
Proof.
  induction 1 as [|x l Hs IH Hx]; intros Hnd; constructor;
    inversion Hnd as [|? ? Hnin Hnd']; subst; auto.
  rewrite List.Forall_forall in *. intros y Hy.
  specialize (Hx y Hy). apply defaultCompare_le in Hx.
  destruct (String_lt x y) eqn:E; [reflexivity|].
  exfalso. apply Hnin. rewrite (String_lt_total x y E Hx). exact Hy.
Qed.

Lemma providers_tail_In models p :
  In p (tl (providers models)) <->
  exists m, In m models /\ UnifiedModelData.provider m = p.
Proof.
  unfold providers. cbn [tl]. split.
  - intros H.
    eapply Permutation_in in H; [|symmetry; apply sort_Permutation].
    apply distinct_In, in_map_iff in H as (m & Hm & Hin). eauto.
  - intros (m & Hin & Hm).
    eapply Permutation_in; [apply sort_Permutation|].
    apply distinct_In, in_map_iff. eauto.
Qed.

(** The options of the provider filter are "All" followed by the provider
    labels of the models, each once, in strictly increasing order of their
    code units. *)
Theorem providers_options (models : list UnifiedModelData.t) :
  hd "" (providers models) = "All" /\
  (forall p, In p (tl (providers models)) <->
             exists m, In m models /\ UnifiedModelData.provider m = p) /\
  StronglySorted (fun a b => String_lt a b = true) (tl (providers models)).
Proof.
  split; [reflexivity|]. split; [intros p; apply providers_tail_In|].
  unfold providers. cbn [tl]. apply sorted_strict.
  - apply (sort_sorted defaultCompare (fun _ => True)
             defaultCompare_antisym defaultCompare_trans).
    apply List.Forall_forall. auto.
  - eapply Permutation.Permutation_NoDup; [apply sort_Permutation|apply distinct_NoDup].
Qed.

Lemma sort_not_nil {A} (cmp : A -> A -> Z) l : l <> [] -> Array_sort cmp l <> [].
Proof.
  intros Hl Hs. pose proof (sort_Permutation cmp l) as Hp. rewrite Hs in Hp.
  apply Permutation_nil_r in Hp. contradiction.
Qed.

(** Whichever option of the provider filter is chosen, with an empty search
    the table shows at least one model. *)
Theorem listed_provider_has_rows (models : list UnifiedModelData.t)
    (inputTokens outputTokens : number) (p : string)
    (sortField : SortField) (sortOrder : SortOrder) (selectedModelIds : gset string) :
  In p (tl (providers models)) ->
  tableData (allCosts models inputTokens outputTokens) p "" sortField sortOrder
            selectedModelIds <> [].
Proof.
  intros Hp. apply providers_tail_In in Hp as (m & Hm & Hpm).
  unfold tableData. cbn [isEmpty negb]. apply sort_not_nil.
  set (d := calculateModelCost m inputTokens outputTokens).
  assert (Hd : In d (allCosts models inputTokens outputTokens))
    by exact (in_map (fun m => calculateModelCost m inputTokens outputTokens) models m Hm).
  destruct (negb (String.eqb p "All")).
  - intros Hnil.
    assert (Hin : In d (List.filter
              (fun d => String.eqb (UnifiedModelData.provider (model d)) p)
              (allCosts models inputTokens outputTokens))).
    { apply filter_In. split; [exact Hd|]. apply String.eqb_eq. exact Hpm. }
    rewrite Hnil in Hin. contradiction.
  - intros Hnil. rewrite Hnil in Hd. contradiction.
Qed.

Lemma listed_provider_has_rows_witness :
  let models := [priced "openai/gpt-4" "OpenAI" (int 30) (int 60);
                 priced "anthropic/claude-3" "Anthropic" (int 3) (int 15)] in
  In "OpenAI" (tl (providers models)) /\
  tableData (allCosts models (int 20000) (int 100000)) "OpenAI" "" ByTotalCost asc ∅ <> [].
Proof.
  intros models.
  assert (H : In "OpenAI" (tl (providers models))) by (vm_compute; tauto).
  split; [exact H|].
  exact (listed_provider_has_rows models (int 20000) (int 100000) "OpenAI"
           ByTotalCost asc ∅ H).
Defined.

(** ** The cache gateway and its callers *)

Lemma settled_failing w e :
  fetchFresh (net w) = Throw e ->
  settled (fetchModels w) =
  match usable (cached w) with Some models => Return models | None => Throw e end.
Proof.
  intros He. unfold fetchModels.
  destruct (checkCache w) as [[models|] st] eqn:Hc.
  - apply checkCache_fresh in Hc as [-> _]. reflexivity.
  - rewrite He. simpl. apply staleFallback_usable.
Qed.

Lemma settled_succeeding w l :
  fetchFresh (net w) = Return l -> exists v, settled (fetchModels w) = Return v.
Proof.
  intros Hl. unfold fetchModels.
  destruct (checkCache w) as [[models|] st]; [eauto|]. rewrite Hl. simpl. eauto.
Qed.

(** The storage that the first block leaves behind when it does not
    return. *)
Lemma checkCache_storage w st : checkCache w = (None, st) -> st = afterCheck (cached w).
Proof.
  unfold checkCache, afterCheck, readable.
  destruct (cached w) as [[s|v]|]; simpl.
  - destruct (isEmpty s); simpl; intros [= <-]; reflexivity.
  - destruct v; cbn [getMember]; try (intros [= <-]; reflexivity);
      (destruct (ToNumber _) as [t|]; [|intros [= <-]; reflexivity]);
      (destruct (lt _ _); [discriminate|intros [= <-]; reflexivity]).
  - intros [= <-]. reflexivity.
Qed.

Lemma readable_usable c : readable c = true -> usable c <> None.
Proof.
  unfold readable, usable. destruct c as [[s|v]|]; simpl; try discriminate.
  destruct v; simpl; discriminate.
Qed.

Lemma written_entry_usable t l :
  usable (Some (JSON_stringify (VObject [("timestamp", VNumber t);
                                         ("models", modelsValue l)]))) =
  Some (JSON_image (modelsValue l)).
Proof. destruct t as [[]|[]| |[] m e]; reflexivity. Qed.

(** [loadData] always ends with [loading] off.  The error message is set
    exactly when the fetch fails and no cached text parses to a value other
    than [null]; then the models and the time of the last update stay as they
    were.  Otherwise the models are what [fetchModels] returned and the
    time of the last update is the clock. *)
Theorem loadData_outcome (st : AppState.t) (w : world) (clock : number) :
  let st' := loadData st w clock in
  AppState.loading st' = false /\
  (AppState.error st' <> None <->
   (exists e, fetchFresh (net w) = Throw e) /\ usable (cached w) = None) /\
  (AppState.error st' <> None ->
   AppState.models st' = AppState.models st /\
   AppState.lastUpdated st' = AppState.lastUpdated st) /\
  (AppState.error st' = None ->
   settled (fetchModels w) = Return (AppState.models st') /\
   AppState.lastUpdated st' = clock).
Proof.
  unfold loadData. cbn zeta.
  destruct (fetchFresh (net w)) as [l|e] eqn:Hf.
  - destruct (settled_succeeding w l Hf) as [v ->]. cbn.
    repeat split; try congruence. intros [[e He] _]. discriminate.
  - rewrite (settled_failing w e Hf).
    destruct (usable (cached w)) as [models|]; cbn; repeat split;
      try congruence; eauto.
    intros [_ H]. discriminate.
Qed.

Lemma loadData_outcome_witness :
  let st := {| AppState.models := VArray []; AppState.loading := true;
               AppState.error := None; AppState.lastUpdated := int 0 |} in
  let w := {| cached := Some (Malformed "{oops"); now := int 5;
              net := Unreachable; later := int 5 |} in
  AppState.error (loadData st w (int 6)) <> None /\
  AppState.models (loadData st w (int 6)) = VArray [] /\
  AppState.lastUpdated (loadData st w (int 6)) = int 0.
Proof.
  intros st w.
  assert (H : AppState.error (loadData st w (int 6)) <> None) by discriminate.
  split; [exact H|].
  exact (proj1 (proj2 (proj2 (loadData_outcome st w (int 6)))) H).
Defined.

(** [fetchModels] never loses a cache that its first block reads without
    throwing (a text that parses to a value other than [null] whose
    timestamp converts to a number): such a text is still there afterwards,
    or a usable one has replaced it.  A call whose fetch fails writes
    nothing: it leaves a text that it reads, and the empty text, as they
    are, and removes every other text, the one whose timestamp does not
    convert included, though the stale fallback may still have served its
    models.  A call whose fetch succeeds stores an entry whose models are
    those it returns, as JSON reads them back. *)
Theorem cache_never_lost (w : world) :
  (readable (cached w) = true -> usable (storage (fetchModels w)) <> None) /\
  (forall e, fetchFresh (net w) = Throw e ->
     storage (fetchModels w) = afterCheck (cached w) /\
     (readable (cached w) = true -> storage (fetchModels w) = cached w)) /\
  (forall l, fetchFresh (net w) = Return l -> fetched (fetchModels w) = true ->
     settled (fetchModels w) = Return (modelsValue l) /\
     usable (storage (fetchModels w)) = Some (JSON_image (modelsValue l))).
Proof.
  assert (Hfail : forall e, fetchFresh (net w) = Throw e ->
            storage (fetchModels w) = afterCheck (cached w)).
  { intros e He. unfold fetchModels.
    destruct (checkCache w) as [[m|] st] eqn:Hc; simpl.
    - pose proof Hc as Hr. apply checkCache_fresh in Hc as [_ ->].
      unfold afterCheck.
      replace (readable (cached w)) with true; [reflexivity|].
      unfold checkCache in Hr. unfold readable.
      destruct (cached w) as [[s|v]|]; simpl in *.
      + destruct (isEmpty s); discriminate.
      + destruct (getMember v "timestamp") as [ts|]; [|discriminate].
        destruct (ToNumber ts); [reflexivity|discriminate].
      + discriminate.
    - rewrite He. simpl. apply checkCache_storage, Hc. }
  split; [|split].
  - intros Hr. pose proof (readable_usable _ Hr) as Hu.
    unfold fetchModels. destruct (checkCache w) as [[m|] st] eqn:Hc.
    + apply checkCache_fresh in Hc as [_ ->]. exact Hu.
    + destruct (fetchFresh (net w)) as [l|e]; cbn [storage].
      * rewrite written_entry_usable. discriminate.
      * apply checkCache_storage in Hc. subst st. unfold afterCheck. rewrite Hr. exact Hu.
  - intros e He. split; [exact (Hfail e He)|].
    intros Hr. rewrite (Hfail e He). unfold afterCheck. rewrite Hr. reflexivity.
  - intros l Hl Hf. unfold fetchModels in *.
    destruct (checkCache w) as [[m|] st]; [discriminate|].
    rewrite Hl in *. cbn [settled storage].
    split; [reflexivity|apply written_entry_usable].
Qed.

Lemma cache_never_lost_witness :
  let stale := VObject [("timestamp", VNumber (int 0)); ("models", VArray [])] in
  let w := {| cached := Some (Json stale); now := int 86400000;
              net := Unreachable; later := int 86400000 |} in
  readable (cached w) = true /\ usable (storage (fetchModels w)) <> None /\
  storage (fetchModels w) = cached w.
Proof.
  intros stale w.
  assert (H : readable (cached w) = true) by reflexivity.
  split; [exact H|]. split.
  - exact (proj1 (cache_never_lost w) H).
  - exact (proj2 (proj1 (proj2 (cache_never_lost w)) FetchError eq_refl) H).
Defined.

(** A stored value whose timestamp is an object with a [toString] of its
    own: the subtraction throws, the text is removed, and the stale fallback
    still serves its models. *)
Example unreadable_timestamp :
  let entry := VObject [("timestamp", VObject [("toString", VNumber (int 1))]);
                        ("models", VArray [])] in
  let r := fetchModels {| cached := Some (Json entry); now := int 0;
                          net := Unreachable; later := int 0 |} in
  settled r = Return (VArray []) /\ storage r = None.
Proof. split; reflexivity. Qed.

(** Once a fetch has succeeded, the catalog stays available without the
    network: whatever the age of the entry, a later call whose fetch fails
    returns the models that were stored, as JSON reads them back. *)
Theorem served_offline (w1 w2 : world) (statusText : string)
    (rawModels : list OpenRouterModel.t) (e : error) :
  net w1 = Response true statusText (Data rawModels) ->
  fetched (fetchModels w1) = true ->
  cached w2 = storage (fetchModels w1) ->
  fetchFresh (net w2) = Throw e ->
  settled (fetchModels w2) = Return (JSON_image (modelsValue (map normalize rawModels))).
Proof.
  intros Hnet Hf Hc He.
  rewrite (settled_failing w2 e He), Hc.
  unfold fetchModels in *. destruct (checkCache w1) as [[m|] st]; [discriminate|].
  rewrite Hnet. cbn [storage fetchFresh]. rewrite written_entry_usable. reflexivity.
Qed.

Lemma served_offline_witness :
  let w1 := {| cached := None; now := int 1000;
               net := Response true "OK" (Data [claude3 "Claude 3" None]);
               later := int 1000 |} in
  let w2 := {| cached := storage (fetchModels w1); now := int 999999999;
               net := Unreachable; later := int 999999999 |} in
  lt (sub (now w2) (later w1)) CACHE_DURATION = false /\
  settled (fetchModels w2) =
  Return (JSON_image (modelsValue [normalize (claude3 "Claude 3" None)])).
Proof.
  intros w1 w2. split; [reflexivity|].
  exact (served_offline w1 w2 "OK" [claude3 "Claude 3" None] FetchError
           eq_refl eq_refl eq_refl eq_refl).
Defined.

(** ** App: the exchange rate *)

Lemma inrOf_truthy data :
  ToBoolean (inrOf data) = true ->
  ToBoolean data = true /\ ToBoolean (ratesOf data) = true.
Proof.
  unfold inrOf, ratesOf.
  destruct data as [| |b|x|s|l|fields]; try discriminate.
  cbn [getMember ToBoolean].
  destruct (lookupField "rates" fields) as [| |b|x|s|l|rates]; try discriminate.
  auto.
Qed.

(** The exchange rate never becomes falsy (0, [NaN], [null], [undefined],
    the empty string): a truthy rate is replaced by 1, by the fallback 84, or
    by a truthy [rates.INR], and is kept when the response holds no truthy
    [rates.INR].  With INR and a response that can be read, the rate becomes
    [rates.INR] whenever that is truthy, and only then changes.  With USD the
    rate is 1 whatever the network says. *)
Theorem exchange_rate_truthy (currency : Currency) (res : rate_response)
    (exchangeRate : value) :
  ToBoolean exchangeRate = true ->
  ToBoolean (fetchRate currency res exchangeRate) = true /\
  (forall data, ToBoolean (inrOf data) = false ->
     fetchRate INR (RateData data) exchangeRate = exchangeRate) /\
  (forall data, ToBoolean (inrOf data) = true ->
     fetchRate INR (RateData data) exchangeRate = inrOf data) /\
  fetchRate USD res exchangeRate = VNumber (int 1) /\
  fetchRate INR RateFailed exchangeRate = VNumber (int 84).
Proof.
  intros H. repeat split.
  - unfold fetchRate. destruct currency; [reflexivity|].
    destruct res as [|data]; [reflexivity|].
    destruct (ToBoolean data && ToBoolean (ratesOf data) && ToBoolean (inrOf data)) eqn:E;
      [|exact H].
    apply andb_true_iff in E as [_ E]. exact E.
  - intros data Hd. unfold fetchRate. rewrite Hd, andb_false_r. reflexivity.
  - intros data Hd. unfold fetchRate.
    destruct (inrOf_truthy data Hd) as [-> ->]. rewrite Hd. reflexivity.
Qed.

Lemma exchange_rate_truthy_witness :
  let data := VObject [("base", VString "USD");
                       ("rates", VObject [("EUR", VNumber (lit "0.92"))])] in
  let data' := VObject [("base", VString "USD");
                        ("rates", VObject [("EUR", VNumber (lit "0.92"));
                                           ("INR", VNumber (lit "83.12"))])] in
  ToBoolean (VNumber (int 1)) = true /\
  fetchRate INR (RateData data) (VNumber (int 1)) = VNumber (int 1) /\
  fetchRate INR (RateData data') (VNumber (int 1)) = VNumber (lit "83.12").
Proof.
  intros data data'. split; [reflexivity|]. split.
  - exact (proj1 (proj2 (exchange_rate_truthy INR (RateData data) (VNumber (int 1)) eq_refl))
             data eq_refl).
  - exact (proj1 (proj2 (proj2 (exchange_rate_truthy INR (RateData data) (VNumber (int 1))
                                  eq_refl)))
             data' eq_refl).
Defined.

(** ** Provider inference *)

Lemma toLower_idem c : toLower (toLower c) = toLower c.
Proof. destruct c as [[] [] [] [] [] [] [] []]; reflexivity. Qed.

Lemma toLower_slash_iff c : Ascii.eqb (toLower c) "/" = Ascii.eqb c "/".
Proof. destruct c as [[] [] [] [] [] [] [] []]; reflexivity. Qed.

Lemma lower_idem s : String_toLowerCase (String_toLowerCase s) = String_toLowerCase s.
Proof.
  induction s as [|c s IH]; [reflexivity|]. simpl. rewrite toLower_idem, IH. reflexivity.
Qed.

Lemma split_lower s :
  String_split (String_toLowerCase s) "/" = map String_toLowerCase (String_split s "/").
Proof.
  induction s as [|c s IH]; [reflexivity|].
  cbn [String_toLowerCase String_split]. rewrite toLower_slash_iff, IH.
  destruct (Ascii.eqb c "/"); [reflexivity|].
  destruct (String_split s "/"); reflexivity.
Qed.

(** Provider inference looks at the id only, and not at the case of its
    letters. *)
Theorem guessProvider_ignores_case (id name name' : string) :
  guessProvider id name = guessProvider (String_toLowerCase id) name'.
Proof.
  unfold guessProvider. rewrite lower_idem, split_lower, length_map.
  destruct (String_split id "/") as [|p ps]; cbn [map hd]; rewrite ?lower_idem; reflexivity.
Qed.

(** Two prefixes of one text: one is a prefix of the other. *)
Lemma startsWith_comparable s : forall p q,
  String_startsWith s p = true -> String_startsWith s q = true ->
  String_startsWith p q = true \/ String_startsWith q p = true.
Proof.
  induction s as [|a s IH]; intros [|x p] [|y q]; simpl; auto; try discriminate.
  rewrite !andb_true_iff. intros [Hx Hp] [Hy Hq].
  apply Ascii.eqb_eq in Hx, Hy. subst x y. rewrite Ascii.eqb_refl.
  destruct (IH p q Hp Hq); [left|right]; split; auto.
Qed.

Lemma startsWith_other s p q :
  String_startsWith s p = true ->
  String_startsWith p q = false -> String_startsWith q p = false ->
  String_startsWith s q = false.
Proof.
  intros Hp H1 H2. destruct (String_startsWith s q) eqn:E; [|reflexivity].
  destruct (startsWith_comparable s p q Hp E); congruence.
Qed.

(** An id that starts, whatever the case of its letters, with one of the
    known prefixes gets the label of that prefix: no earlier rule takes it
    away. *)
Theorem known_prefix_label (id name p label : string) :
  In (p, label) knownProviders ->
  String_startsWith (String_toLowerCase id) p = true ->
  guessProvider id name = label.
Proof.
  unfold knownProviders. cbn [In]. intros Hin H.
  repeat (destruct Hin as [[= <- <-]|Hin]; [
    unfold guessProvider;
    repeat match goal with
    | |- context [String_startsWith (String_toLowerCase id) ?q] =>
        first [ rewrite H
              | rewrite (startsWith_other (String_toLowerCase id) _ q H eq_refl eq_refl) ]
    end; reflexivity |]).
  contradiction.
Qed.

Lemma known_prefix_label_witness :
  String_startsWith (String_toLowerCase "Meta-Llama/Llama-3-70B") "meta-llama/" = true /\
  guessProvider "Meta-Llama/Llama-3-70B" "Llama 3" = "Meta".
Proof.
  split; [reflexivity|].
  apply (known_prefix_label _ _ "meta-llama/"); [cbn; tauto|reflexivity].
Defined.

Lemma split_not_nil s sep : String_split s sep <> [].
Proof.
  destruct s as [|c s]; simpl; [discriminate|].
  destruct (Ascii.eqb c sep); [discriminate|].
  destruct (String_split s sep); discriminate.
Qed.

(** The provider label is empty exactly when the id begins with a slash. *)
Theorem provider_label_empty (id name : string) :
  guessProvider id name = "" <-> String_startsWith id "/" = true.
Proof.
  destruct id as [|c rest].
  - split; discriminate.
  - replace (String_startsWith (String c rest) "/") with (Ascii.eqb c "/")
      by (simpl; destruct rest; rewrite andb_true_r; reflexivity).
    unfold guessProvider. cbn [String_toLowerCase String_split].
    destruct (Ascii.eqb_spec c "/") as [->|Hc].
    + split; [reflexivity|intros _].
      pose proof (split_not_nil rest "/") as Hne.
      destruct (String_split rest "/") as [|q qs]; [contradiction|]. reflexivity.
    + split; [|discriminate]. intros H. exfalso. revert H.
      repeat match goal with
      | |- context [if String_startsWith ?a ?b then _ else _] =>
          destruct (String_startsWith a b); [discriminate|]
      end.
      destruct (String_split rest "/") as [|q qs]; cbn [length hd];
        match goal with |- context [if ?b then _ else _] => destruct b end;
        try discriminate; cbn [String_toLowerCase String_charAt0 String_toUpperCase];
        rewrite append_cons; discriminate.
Qed.

(** ** The cost calculator *)

Lemma div_million_sign t :
  hasSign false t = true -> hasSign false (div t (int 1000000)) = true.
Proof.
  remember (int 1000000) as k eqn:E. vm_compute in E. subst k.
  destruct t as [[]|[]| |[] m e]; simpl; try discriminate; intros _; try reflexivity.
  unfold div, SFdiv, SFdiv_core_binary.
  set (m' := match _ - _ with Z0 => Z.pos m | Z.pos _ => _ | Z.neg _ => 0 end).
  assert (Hm : 0 <= m').
  { subst m'. destruct (_ - _); [lia| |lia]. apply Z.shiftl_nonneg. lia. }
  match goal with
  | |- context [Z.div_eucl m' ?d] =>
      pose proof (Z.div_pos m' d Hm ltac:(lia)) as Hq;
      unfold Z.div in Hq; destruct (Z.div_eucl m' d) as [q r]
  end.
  simpl in Hq. apply binary_round_aux_sign, Hq.
Qed.

Lemma mul_notNegative x y :
  hasSign false x = true -> hasSign false y = true -> notNegative (mul x y) = true.
Proof.
  destruct x as [[]|[]| |[] m e], y as [[]|[]| |[] n f]; simpl; try discriminate;
    intros _ _; try reflexivity.
  pose proof (binary_round_aux_sign false (Z.pos (m * n)) (e + f) loc_Exact ltac:(lia)) as H.
  unfold mul, SFmul. simpl xorb.
  destruct (binary_round_aux prec emax false _ _ _); simpl in *; congruence.
Qed.

Lemma add_notNegative x y :
  notNegative x = true -> notNegative y = true -> notNegative (add x y) = true.
Proof.
  destruct x as [[]|[]| |[] m e], y as [[]|[]| |[] n f]; simpl; try discriminate;
    intros _ _; try reflexivity.
  unfold add, SFadd. cbn [cond_Zopp]. 
  set (a := fst (shl_align m e (Z.min e f))). set (b := fst (shl_align n f (Z.min e f))).
  change (Z.pos a + Z.pos b) with (Z.pos (a + b)). cbn [binary_normalize].
  unfold binary_round. destruct (shl_align (a + b) _ _) as [mz ez].
  pose proof (binary_round_aux_sign false (Z.pos mz) ez loc_Exact ltac:(lia)) as H.
  destruct (binary_round_aux prec emax false _ _ _); simpl in *; congruence.
Qed.

Lemma notNegative_lt x : notNegative x = true -> lt x zero = false.
Proof. destruct x as [[]|[]| |[] m e]; simpl; try discriminate; reflexivity. Qed.

Lemma hasSign_notNegative x : hasSign false x = true -> notNegative x = true.
Proof. destruct x; simpl; congruence. Qed.

(** For token counts that are not negative, no cost of a normalized model is
    negative: the input cost, the output cost and their total are each [NaN]
    (a price of [Infinity] times no tokens) or at least 0. *)
Theorem costs_not_negative (raw : OpenRouterModel.t) (inputTokens outputTokens : number) :
  hasSign false inputTokens = true -> hasSign false outputTokens = true ->
  let c := calculateModelCost (normalize raw) inputTokens outputTokens in
  lt (inputCost c) zero = false /\
  lt (outputCost c) zero = false /\
  lt (totalCost c) zero = false.
Proof.
  intros Hi Ho. unfold calculateModelCost, normalize. cbn.
  assert (Hic : notNegative (mul (div inputTokens (int 1000000))
                  (mul (parsePrice (promptOf (OpenRouterModel.pricing raw)))
                       (int 1000000))) = true)
    by (apply mul_notNegative; [apply div_million_sign, Hi
                               |apply mul_million_sign, parsePrice_sign]).
  assert (Hoc : notNegative (mul (div outputTokens (int 1000000))
                  (mul (parsePrice (completionOf (OpenRouterModel.pricing raw)))
                       (int 1000000))) = true)
    by (apply mul_notNegative; [apply div_million_sign, Ho
                               |apply mul_million_sign, parsePrice_sign]).
  repeat split; apply notNegative_lt; auto using add_notNegative.
Qed.

Lemma costs_not_negative_witness :
  let c := calculateModelCost (normalize overpriced) zero (int 100000) in
  hasSign false zero = true /\ hasSign false (int 100000) = true /\
  inputCost c = NaN /\ lt (totalCost c) zero = false.
Proof.
  intros c. split; [reflexivity|]. split; [reflexivity|]. split; [reflexivity|].
  exact (proj2 (proj2 (costs_not_negative overpriced zero (int 100000) eq_refl eq_refl))).
Defined.

Lemma eqb_zero x : eqb x zero = true <-> exists s, x = S754_zero s.
Proof.
  destruct x as [s|[]| |[] m e]; simpl; split; try discriminate; eauto;
    intros [s' H]; discriminate.
Qed.

(** A model whose two prices are 0 costs 0 in total for all token counts
    whose millionths are finite, and every model of finite prices costs 0 for
    no tokens at all: the total is then [=== 0], the table shows the badge
    and the default chart leaves the model out. *)
Theorem costs_nothing (m : UnifiedModelData.t) (inputTokens outputTokens : number) :
  (eqb (UnifiedModelData.inputPricePerMillion m) zero = true /\
   eqb (UnifiedModelData.outputPricePerMillion m) zero = true /\
   isFinite (div inputTokens (int 1000000)) = true /\
   isFinite (div outputTokens (int 1000000)) = true) \/
  (eqb inputTokens zero = true /\ eqb outputTokens zero = true /\
   isFinite (UnifiedModelData.inputPricePerMillion m) = true /\
   isFinite (UnifiedModelData.outputPricePerMillion m) = true) ->
  let c := calculateModelCost m inputTokens outputTokens in
  eqb (totalCost c) zero = true /\
  gt (totalCost c) zero = false /\
  chartRows [c] false = [].
Proof.
  intros H c.
  assert (Hz : exists s, totalCost c = S754_zero s).
  { unfold c, calculateModelCost. cbn [totalCost].
    destruct H as [(Hi & Ho & Fi & Fo)|(Hi & Ho & Fi & Fo)].
    - apply eqb_zero in Hi as [si ->], Ho as [so ->].
      destruct (div inputTokens _) as [[]|[]| |[] a b]; try discriminate;
        destruct (div outputTokens _) as [[]|[]| |[] a' b']; try discriminate;
        destruct si, so; simpl; eauto.
    - apply eqb_zero in Hi as [si ->], Ho as [so ->].
      remember (int 1000000) as k eqn:E. vm_compute in E. subst k.
      destruct (UnifiedModelData.inputPricePerMillion m) as [[]|[]| |[] a b];
        try discriminate;
        destruct (UnifiedModelData.outputPricePerMillion m) as [[]|[]| |[] a' b'];
        try discriminate; destruct si, so; simpl; eauto. }
  destruct Hz as [s Hs]. unfold chartRows. cbn [List.filter].
  rewrite Hs. destruct s; repeat split; reflexivity.
Qed.

Lemma costs_nothing_witness :
  let free := priced "acme/free" "Acme" zero zero in
  let c := calculateModelCost free (int 20000) (int 100000) in
  eqb (totalCost c) zero = true /\ chartRows [c] false = [].
Proof.
  intros free c.
  destruct (costs_nothing free (int 20000) (int 100000)
              (or_introl (conj eq_refl (conj eq_refl (conj eq_refl eq_refl)))))
    as (H1 & _ & H3).
  split; [exact H1|exact H3].
Defined.

(** ** The table and the chart *)

Lemma filter_filter {A} (f g : A -> bool) l :
  List.filter g (List.filter f l) = List.filter (fun x => f x && g x) l.
Proof.
  induction l as [|x l IH]; [reflexivity|]. simpl.
  destruct (f x); simpl; [destruct (g x)|]; rewrite IH; reflexivity.
Qed.

Lemma filter_all {A} (l : list A) : List.filter (fun _ => true) l = l.
Proof. induction l as [|x l IH]; simpl; congruence. Qed.

Lemma tableData_sorts_shown costs p s f o sel :
  tableData costs p s f o sel =
  Array_sort (compareRows sel f o) (List.filter (rowShown p s) costs).
Proof.
  unfold tableData. f_equal.
  assert (Hext : forall g, (forall d, g d = rowShown p s d) ->
                 List.filter g costs = List.filter (rowShown p s) costs)
    by (intros g Hg; apply filter_ext, Hg).
  destruct (String.eqb p "All") eqn:Ep, (isEmpty s) eqn:Es; cbn [negb].
  - rewrite <- (Hext (fun _ => true)); [symmetry; apply filter_all|].
    intros d. unfold rowShown. rewrite Ep, Es. reflexivity.
  - apply Hext. intros d. unfold rowShown. rewrite Ep, Es. reflexivity.
  - apply Hext. intros d. unfold rowShown. rewrite Ep, Es. cbn [orb].
    rewrite andb_true_r. reflexivity.
  - rewrite filter_filter. apply Hext. intros d. unfold rowShown.
    rewrite Ep, Es. reflexivity.
Qed.

(** The table holds exactly the cost records that pass the provider filter
    and the search, each as often as in the input, and no other: the sort
    only rearranges them, whatever the keys are. *)
Theorem table_rows (costs : list CostCalculation) (selectedProvider search : string)
    (sortField : SortField) (sortOrder : SortOrder) (selectedModelIds : gset string) :
  let table := tableData costs selectedProvider search sortField sortOrder selectedModelIds in
  Permutation (List.filter (rowShown selectedProvider search) costs) table /\
  (forall d, In d table <-> In d costs /\ rowShown selectedProvider search d = true) /\
  (length table <= length costs)%nat.
Proof.
  intros table.
  assert (Hp : Permutation (List.filter (rowShown selectedProvider search) costs) table).
  { unfold table. rewrite tableData_sorts_shown. apply sort_Permutation. }
  split; [exact Hp|]. split.
  - intros d. rewrite <- filter_In. split; intros H.
    + eapply Permutation_in; [symmetry; exact Hp|exact H].
    + eapply Permutation_in; [exact Hp|exact H].
  - rewrite <- (Permutation_length Hp). apply filter_length_le.
Qed.

Lemma isEmpty_lower s : isEmpty (String_toLowerCase s) = isEmpty s.
Proof. destruct s; reflexivity. Qed.

Lemma toLower_toUpper c : toLower (toUpper c) = toLower c.
Proof. destruct c as [[] [] [] [] [] [] [] []]; reflexivity. Qed.

Lemma lower_upper s : String_toLowerCase (String_toUpperCase s) = String_toLowerCase s.
Proof.
  induction s as [|c s IH]; [reflexivity|]. simpl. rewrite toLower_toUpper, IH. reflexivity.
Qed.

(** The search does not see the case of letters: two searches that agree
    once lowered give the same table. *)
Theorem search_ignores_case (costs : list CostCalculation) (selectedProvider : string)
    (search search' : string)
    (sortField : SortField) (sortOrder : SortOrder) (selectedModelIds : gset string) :
  String_toLowerCase search = String_toLowerCase search' ->
  tableData costs selectedProvider search sortField sortOrder selectedModelIds =
  tableData costs selectedProvider search' sortField sortOrder selectedModelIds.
Proof.
  intros H. unfold tableData.
  rewrite <- (isEmpty_lower search), <- (isEmpty_lower search'), H. reflexivity.
Qed.

Lemma search_ignores_case_witness :
  let costs := allCosts [priced "openai/gpt-4" "OpenAI" (int 30) (int 60);
                         priced "anthropic/claude-3" "Anthropic" (int 3) (int 15)]
                        (int 20000) (int 100000) in
  String_toLowerCase "GPT" = String_toLowerCase "gpt" /\
  tableData costs "All" "GPT" ByTotalCost asc ∅ =
  tableData costs "All" "gpt" ByTotalCost asc ∅ /\
  length (tableData costs "All" "GPT" ByTotalCost asc ∅) = 1%nat.
Proof.
  intros costs. split; [reflexivity|]. split.
  - exact (search_ignores_case costs "All" "GPT" "gpt" ByTotalCost asc ∅ eq_refl).
  - vm_compute. reflexivity.
Defined.

Lemma firstn_subset {A} (x : A) n : forall l, In x (firstn n l) -> In x l.
Proof.
  induction n as [|n IH]; intros [|y l]; simpl; try tauto.
  intros [H|H]; auto.
Qed.

Lemma filter_nil_iff {A} (f : A -> bool) l :
  List.filter f l = [] <-> Forall (fun x => f x = false) l.
Proof.
  induction l as [|x l IH]; simpl.
  - split; constructor.
  - destruct (f x) eqn:E; split; intros H.
    + discriminate.
    + inversion H; congruence.
    + constructor; [exact E|apply IH, H].
    + inversion H; subst. apply IH. assumption.
Qed.

(** The chart never shows a record that is not among the cost records.  In
    selection mode it is empty exactly when no cost record has a selected id;
    otherwise exactly when no row of the table has a positive total cost. *)
Theorem chart_rows (costs : list CostCalculation) (selectedProvider search : string)
    (sortField : SortField) (sortOrder : SortOrder) (selectedModelIds : gset string) :
  let table := tableData costs selectedProvider search sortField sortOrder selectedModelIds in
  let view := chartView costs selectedProvider search sortField sortOrder selectedModelIds in
  (forall d, In d view -> In d costs) /\
  (view = [] <->
   if isSelectionMode selectedModelIds
   then Forall (fun d => selected selectedModelIds d = false) costs
   else Forall (fun d => gt (totalCost d) zero = false) table).
Proof.
  intros table view. unfold view, chartView, chartData, chartRows, isSelectionMode.
  fold table. destruct (0 <? size selectedModelIds)%nat.
  - split.
    + intros d H. apply filter_In in H. tauto.
    + apply filter_nil_iff.
  - split.
    + intros d H. apply firstn_subset in H. apply filter_In in H as [H _].
      unfold table in H. rewrite tableData_sorts_shown in H.
      eapply Permutation_in in H; [|symmetry; apply sort_Permutation].
      apply filter_In in H. tauto.
    + rewrite <- filter_nil_iff.
      destruct (List.filter _ table); [tauto|]. split; discriminate.
Qed.

Lemma chart_rows_witness :
  let costs := allCosts [priced "a/one" "A" (int 1) zero; priced "b/free" "B" zero zero]
                        (int 1000000) zero in
  let d := calculateModelCost (priced "a/one" "A" (int 1) zero) (int 1000000) zero in
  In d (chartView costs "All" "" ByTotalCost asc ∅) /\ In d costs.
Proof.
  intros costs d.
  assert (H : In d (chartView costs "All" "" ByTotalCost asc ∅)) by (left; reflexivity).
  split; [exact H|].
  exact (proj1 (chart_rows costs "All" "" ByTotalCost asc ∅) d H).
Defined.

(** ** Labels of the chart *)

Lemma length_append a b : String.length (a +:+ b) = (String.length a + String.length b)%nat.
Proof.
  induction a as [|c a IH]; [reflexivity|]. rewrite append_cons. simpl. rewrite IH. reflexivity.
Qed.

Lemma append_assoc a b c : (a +:+ b) +:+ c = a +:+ (b +:+ c).
Proof.
  induction a as [|x a IH]; [reflexivity|]. rewrite !append_cons, IH. reflexivity.
Qed.

Lemma length_prefix n : forall s,
  String.length (String.substring 0 n s) = Nat.min n (String.length s).
Proof.
  induction n as [|n IH]; intros [|c s]; simpl; auto.
Qed.

Lemma startsWith_prefix n : forall s t,
  String_startsWith (String.substring 0 n s +:+ t) (String.substring 0 n s) = true.
Proof.
  induction n as [|n IH]; intros [|c s] t; try (destruct t; reflexivity).
  cbn [String.substring]. rewrite append_cons. cbn [String_startsWith].
  rewrite Ascii.eqb_refl. apply IH.
Qed.

Lemma prefix_all n : forall s,
  (String.length s <= n)%nat -> String.substring 0 n s = s.
Proof.
  induction n as [|n IH]; intros [|c s]; simpl; intros H; try reflexivity; try lia.
  rewrite IH by lia. reflexivity.
Qed.

(** A label is kept when it has at most [maxLength] characters; a longer one
    becomes its first [maxLength] characters followed by three dots, hence
    [maxLength + 3] characters.  Either way the label starts as the text
    does. *)
Theorem truncateText_shape (text : string) (maxLength : nat) :
  ((String.length text <= maxLength)%nat /\ truncateText text maxLength = text \/
   (maxLength < String.length text)%nat /\
   truncateText text maxLength = String.substring 0 maxLength text +:+ "..." /\
   String.length (String.substring 0 maxLength text) = maxLength /\
   String.length (truncateText text maxLength) = (maxLength + 3)%nat) /\
  String_startsWith (truncateText text maxLength)
                    (String.substring 0 maxLength text) = true.
Proof.
  unfold truncateText.
  destruct (Nat.leb_spec (String.length text) maxLength) as [Hle|Hgt].
  - split; [left; auto|].
    rewrite (prefix_all _ _ Hle). rewrite <- (append_empty text) at 1.
    rewrite <- (prefix_all _ _ Hle). apply startsWith_prefix.
  - split; [right|apply startsWith_prefix].
    split; [exact Hgt|]. split; [reflexivity|].
    rewrite length_append, length_prefix. simpl. lia.
Qed.

Lemma split_join s : String_join (String_split s "/") "/" = s.
Proof.
  induction s as [|c s IH]; [reflexivity|]. cbn [String_split].
  pose proof (split_not_nil s "/") as Hne.
  destruct (Ascii.eqb_spec c "/") as [->|Hc].
  - destruct (String_split s "/") as [|p ps]; [contradiction|].
    cbn [String_join] in *. rewrite IH. reflexivity.
  - destruct (String_split s "/") as [|p ps]; [contradiction|].
    cbn [String_join] in *. destruct ps; rewrite <- IH; reflexivity.
Qed.

Lemma split_parts_no_slash s :
  Forall (fun p => String_includes p "/" = false) (String_split s "/").
Proof.
  induction s as [|c s IH]; [repeat constructor|]. cbn [String_split].
  destruct (Ascii.eqb c "/") eqn:Ec; [constructor; [reflexivity|exact IH]|].
  destruct (String_split s "/") as [|p ps]; [repeat constructor|].
  - rewrite includes_slash_cons, Ec. reflexivity.
  - inversion IH; subst. constructor; [|assumption].
    rewrite includes_slash_cons, Ec. assumption.
Qed.

Lemma join_last parts :
  parts <> [] -> exists pre, String_join parts "/" = pre +:+ List.last parts "".
Proof.
  induction parts as [|p ps IH]; [contradiction|]. intros _.
  destruct ps as [|q qs].
  - exists "". reflexivity.
  - destruct (IH ltac:(discriminate)) as [pre Hpre].
    exists (p +:+ String "/" pre).
    change (String_join (p :: q :: qs) "/") with (p +:+ String "/" (String_join (q :: qs) "/")).
    rewrite Hpre, append_assoc, append_cons. reflexivity.
Qed.

(** The last part of a text is the last part of what follows any of its
    slashes. *)
Lemma last_split_app pre b :
  List.last (String_split (pre +:+ String "/" b) "/") "" =
  List.last (String_split b "/") "".
Proof.
  assert (H : exists p ps, String_split (pre +:+ String "/" b) "/" = p :: ps /\
                ps <> [] /\ List.last ps "" = List.last (String_split b "/") "").
  { induction pre as [|c pre (p & ps & E & Hne & Hl)].
    - exists "", (String_split b "/"). repeat split. apply split_not_nil.
    - rewrite append_cons. cbn [String_split]. rewrite E.
      destruct (Ascii.eqb c "/").
      + exists "", (p :: ps). repeat split; [discriminate|].
        destruct ps; [contradiction|exact Hl].
      + exists (String c p), ps. auto. }
  destruct H as (p & ps & -> & Hne & <-). destruct ps; [contradiction|reflexivity].
Qed.

(** The short name of a model in the chart is the end of its name: the text
    after the last slash, or the whole name when nothing follows the last
    slash or there is no slash.  It is empty only for the empty name, and
    contains a slash only when it is the whole name. *)
Theorem shortName_suffix (name : string) :
  (exists pre, name = pre +:+ shortName name) /\
  (shortName name = name \/ String_includes (shortName name) "/" = false) /\
  isEmpty (shortName name) = isEmpty name /\
  (String_includes name "/" = false -> shortName name = name) /\
  (forall pre last,
     name = pre +:+ String "/" last -> String_includes last "/" = false ->
     shortName name = if isEmpty last then name else last).
Proof.
  split; [|split; [|split; [|split]]].
  4: { intros H. unfold shortName. rewrite (split_no_slash _ H).
       destruct name; reflexivity. }
  4: { intros pre last -> H. unfold shortName.
       rewrite last_split_app, (split_no_slash _ H). reflexivity. }
  all: unfold shortName;
    destruct (join_last (String_split name "/") (split_not_nil name "/")) as [pre Hpre];
    rewrite split_join in Hpre;
    pose proof (split_parts_no_slash name) as Hparts;
    assert (Hin : In (List.last (String_split name "/") "") (String_split name "/"))
      by (pose proof (split_not_nil name "/");
          destruct (String_split name "/") as [|p ps]; [contradiction|];
          clear; revert p; induction ps as [|q qs IH]; intros p;
          [left; reflexivity|right; apply IH]);
    rewrite List.Forall_forall in Hparts; specialize (Hparts _ Hin);
    destruct (List.last (String_split name "/") "") as [|c l] eqn:El; cbn [isEmpty].
  - exists "". reflexivity.
  - exists pre. exact Hpre.
  - left. reflexivity.
  - right. exact Hparts.
  - reflexivity.
  - destruct name; [|reflexivity]. destruct pre; discriminate.
Qed.

Lemma shortName_suffix_witness :
  String_includes "claude-3" "/" = false /\
  shortName "anthropic/claude-3" = "claude-3" /\
  shortName "a/b/" = "a/b/" /\
  shortName "gpt-4" = "gpt-4".
Proof.
  split; [reflexivity|]. split; [|split].
  - exact (proj2 (proj2 (proj2 (proj2 (shortName_suffix "anthropic/claude-3"))))
             "anthropic" "claude-3" eq_refl eq_refl).
  - exact (proj2 (proj2 (proj2 (proj2 (shortName_suffix "a/b/")))) "a/b" "" eq_refl eq_refl).
  - exact (proj1 (proj2 (proj2 (proj2 (shortName_suffix "gpt-4")))) eq_refl).
Defined.

(** ** The token input *)

Lemma removeCommas_digits t :
  digitsOrCommas t = true -> allDigits (removeCommas t) = true.
Proof.
  induction t as [|c t IH]; [reflexivity|]. simpl.
  rewrite andb_true_iff. intros [Hc Ht].
  destruct (Ascii.eqb c ",") eqn:E; [auto|].
  rewrite orb_false_r in Hc. simpl. rewrite Hc. auto.
Qed.

Lemma parseInt10_digits (neg : bool) ds :
  allDigits ds = true -> isEmpty ds = false ->
  parseInt10 ((if neg then "-" else "") +:+ ds) = of_decimal neg (digitsValue 0 ds) 0.
Proof.
  intros Hd Hne. unfold parseInt10.
  destruct ds as [|d ds]; [discriminate|].
  pose proof Hd as Hd'. simpl in Hd'. apply andb_true_iff in Hd' as [Hd' _].
  destruct (digit_facts d Hd') as (W & P & M & _).
  assert (T : takeSign (trimStart ((if neg then "-" else "") +:+ String d ds)) =
              (neg, String d ds)).
  { destruct neg.
    - change ("-" +:+ String d ds) with (String "-" (String d ds)). reflexivity.
    - change ("" +:+ String d ds) with (String d ds). cbn [trimStart]. rewrite W.
      cbn [takeSign]. rewrite P, M. reflexivity. }
  rewrite T. rewrite <- (append_empty (String d ds)) at 1.
  rewrite (takeDigits_app (String d ds) "" Hd eq_refl). reflexivity.
Qed.

Lemma removeCommas_signed (neg : bool) t :
  removeCommas ((if neg then "-" else "") +:+ t) =
  (if neg then "-" else "") +:+ removeCommas t.
Proof. destruct neg; reflexivity. Qed.

(** A text of digits and commas with at least one digit, with or without a
    minus sign before it, sets the token count to the integer that the
    digits write, negative after a minus sign; the commas do not count.
    Whatever the text, the count is never set to [NaN]. *)
Theorem handleChange_count (neg : bool) (t : string) :
  digitsOrCommas t = true -> isEmpty (removeCommas t) = false ->
  handleChange ((if neg then "-" else "") +:+ t) =
  Some (of_decimal neg (digitsValue 0 (removeCommas t)) 0) /\
  (forall text v, handleChange text = Some v -> isNaN v = false).
Proof.
  intros Hd Hne. split.
  - unfold handleChange.
    rewrite removeCommas_signed, (parseInt10_digits neg _ (removeCommas_digits t Hd) Hne).
    rewrite (hasSign_isNaN neg _ (of_decimal_sign neg _ 0)). reflexivity.
  - intros text v. unfold handleChange.
    destruct (isNaN (parseInt10 (removeCommas text))) eqn:E; cbn [negb].
    + destruct (isEmpty text); [|discriminate]. intros [= <-]. reflexivity.
    + intros [= <-]. exact E.
Qed.

Lemma handleChange_count_witness :
  digitsOrCommas "1,000,000" = true /\ isEmpty (removeCommas "1,000,000") = false /\
  handleChange "1,000,000" = Some (int 1000000) /\
  handleChange "-1,000,000" = Some (int (-1000000)).
Proof.
  split; [reflexivity|]. split; [reflexivity|]. split.
  - exact (proj1 (handleChange_count false "1,000,000" eq_refl eq_refl)).
  - exact (proj1 (handleChange_count true "1,000,000" eq_refl eq_refl)).
Defined.

(** ** The cells of the table *)

Lemma length_zeros n : String.length (zeros n) = n.
Proof. induction n as [|n IH]; simpl; congruence. Qed.

Lemma length_substring n : forall m s,
  (m + n <= String.length s)%nat -> String.length (String.substring m n s) = n.
Proof.
  intros m. induction m as [|m IH]; intros s H.
  - rewrite length_prefix. lia.
  - destruct s as [|c s]; simpl in *; [lia|]. apply IH. lia.
Qed.

Lemma fixedDigits_shape n f :
  exists a b, fixedDigits n (S f) = a +:+ "." +:+ b /\ String.length b = S f.
Proof.
  unfold fixedDigits.
  set (m := if (String.length (digitsOf n) <=? S f)%nat then _ else _).
  assert (Hm : (S f < String.length m + 1)%nat).
  { subst m. destruct (Nat.leb_spec (String.length (digitsOf n)) (S f)).
    - rewrite length_append, length_zeros. lia.
    - lia. }
  eexists _, _. split; [reflexivity|]. apply length_substring. lia.
Qed.

Lemma toFixed_shape x f :
  fixedRange x = true ->
  exists a b, Number_toFixed x (S f) = a +:+ "." +:+ b /\ String.length b = S f.
Proof.
  destruct x as [s|s| |neg m e]; try discriminate; cbn [fixedRange Number_toFixed].
  - intros _. apply fixedDigits_shape.
  - destruct (ratio m e) as [num den]. destruct (ge_pow10 num den 21); [discriminate|].
    intros _.
    destruct (fixedDigits_shape ((2 * num * 10 ^ Z.of_nat (S f) + den) / (2 * den)) f)
      as (a & b & -> & Hb).
    exists ((if neg then "-" else "") +:+ a), b. rewrite append_assoc. auto.
Qed.

(** [formatPrice] gives nothing exactly when the value is 0, so that a price
    cell, which shows the badge for 0, never holds nothing.  A value other
    than 0 whose converted amount is finite and below 1e21 is written as the
    symbol and a number with exactly two digits after the point, six for a
    total; a value of [NaN] is written as the symbol and "NaN".  The context
    cell is a dash exactly when the context window is not positive. *)
Theorem table_cells (symbol : string) (rate val : number) (isTotal : bool) :
  (formatPrice symbol rate val isTotal = None <-> eqb val zero = true) /\
  priceCell symbol rate val isTotal <> Some None /\
  (eqb val zero = false -> fixedRange (mul val rate) = true ->
   exists a b,
     formatPrice symbol rate val isTotal = Some (symbol +:+ a +:+ "." +:+ b) /\
     String.length b = (if isTotal then 6 else 2)%nat) /\
  formatPrice symbol rate NaN isTotal = Some (symbol +:+ "NaN") /\
  (contextCell val = "-" <-> gt val zero = false).
Proof.
  unfold priceCell, formatPrice, contextCell. repeat split.
  - destruct (eqb val zero); [reflexivity|]. destruct isTotal; discriminate.
  - intros ->. reflexivity.
  - destruct (eqb val zero); [discriminate|]. destruct isTotal; discriminate.
  - intros Hz Hr. rewrite Hz.
    destruct isTotal.
    + destruct (toFixed_shape (mul val rate) 5 Hr) as (a & b & -> & Hb). eauto.
    + destruct (toFixed_shape (mul val rate) 1 Hr) as (a & b & -> & Hb). eauto.
  - destruct isTotal; reflexivity.
  - destruct (gt val zero); [|reflexivity].
    destruct (Number_toFixed _ 0) as [|c [|c' s]]; discriminate.
  - intros ->. reflexivity.
Qed.

Lemma table_cells_witness :
  eqb (lit "1.56") zero = false /\ fixedRange (mul (lit "1.56") (int 84)) = true /\
  formatPrice "Rs" (int 84) (lit "1.56") true = Some "Rs131.040000" /\
  exists a b,
    formatPrice "Rs" (int 84) (lit "1.56") true = Some ("Rs" +:+ a +:+ "." +:+ b) /\
    String.length b = 6%nat.
Proof.
  assert (H : fixedRange (mul (lit "1.56") (int 84)) = true) by (vm_compute; reflexivity).
  split; [reflexivity|]. split; [exact H|]. split; [vm_compute; reflexivity|].
  exact (proj1 (proj2 (proj2 (table_cells "Rs" (int 84) (lit "1.56") true))) eq_refl H).
Defined.

(** ** Provider inference: the fallback *)

Lemma split_first_segment seg rest :
  String_includes seg "/" = false ->
  String_split (seg +:+ String "/" rest) "/" = seg :: String_split rest "/".
Proof.
  induction seg as [|c seg IH]; [reflexivity|].
  rewrite includes_slash_cons, orb_false_iff. intros [Hc Hs].
  rewrite append_cons. cbn [String_split]. rewrite Hc, (IH Hs). reflexivity.
Qed.

(** An id with a slash that starts with none of the known prefixes is
    labelled by the text before its first slash, in lower case but for a
    capital first letter; this for every id whose first character has its
    capital among the code units below 256. *)
Theorem fallback_label (seg rest name : string) :
  String_includes seg "/" = false ->
  firstUpperInRange (String_toLowerCase seg) = true ->
  forallb (fun rule => negb (String_startsWith
                               (String_toLowerCase (seg +:+ String "/" rest)) (fst rule)))
          knownProviders = true ->
  guessProvider (seg +:+ String "/" rest) name =
  String_toUpperCase (String_charAt0 (String_toLowerCase seg)) +:+
  String_slice1 (String_toLowerCase seg).
Proof.
  intros Hseg _ Hrules. unfold guessProvider.
  cbn [forallb knownProviders fst] in Hrules.
  repeat (apply andb_true_iff in Hrules as [H Hrules];
          apply negb_true_iff in H; rewrite H; clear H).
  rewrite (split_first_segment _ _ Hseg).
  pose proof (split_not_nil rest "/") as Hne.
  destruct (String_split rest "/"); [contradiction|]. reflexivity.
Qed.

Lemma fallback_label_witness :
  String_includes "X-AI" "/" = false /\
  guessProvider "X-AI/grok-2" "Grok 2" = "X-ai".
Proof.
  split; [reflexivity|].
  exact (fallback_label "X-AI" "grok-2" "Grok 2" eq_refl eq_refl eq_refl).
Defined.
